(** * Vinted reselling dashboard: normalizer, database layer and sync adapter

    A shallow embedding of [src/integrations/vinted/normalizer.py],
    of the part of [src/database.py] the adapter goes through, and of
    [src/integrations/vinted/adapter.py], with the properties the
    specification states about them.

    Text is modelled as [string] (a sequence of 8-bit characters); the
    case mappings and the white-space test act on the ASCII range, all
    other characters are left alone.  Calls to the local [logger] write
    to the process log only and are left out. *)

From Stdlib Require Import ZArith Ascii String List Lia Bool.
From stdpp Require Import base option list strings gmap pretty.

Local Open Scope string_scope.
Local Open Scope list_scope.

#[local] Arguments String.append !s1 s2 : simpl nomatch.
#[local] Unset Default Proof Using.

(** ** Python string primitives *)

Module PyStr.

Definition code (c : ascii) : N := N_of_ascii c.

(** [c.isupper()] and [c.islower()] on ASCII letters. *)
Definition is_upper (c : ascii) : bool :=
  (65 <=? code c)%N && (code c <=? 90)%N.

Definition is_lower (c : ascii) : bool :=
  (97 <=? code c)%N && (code c <=? 122)%N.

Definition lower_char (c : ascii) : ascii :=
  if is_upper c then ascii_of_N (code c + 32) else c.

Definition upper_char (c : ascii) : ascii :=
  if is_lower c then ascii_of_N (code c - 32) else c.

(** White space as [str.strip()] sees it: TAB, LF, VT, FF, CR, the four
    separators FS, GS, RS, US and the blank. *)
Definition is_space (c : ascii) : bool :=
  ((9 <=? code c)%N && (code c <=? 13)%N)
  || ((28 <=? code c)%N && (code c <=? 32)%N).

Fixpoint smap (f : ascii -> ascii) (s : string) : string :=
  match s with
  | EmptyString => EmptyString
  | String c s' => String (f c) (smap f s')
  end.

(** [s.lower()] and [s.upper()]. *)
Definition lower (s : string) : string := smap lower_char s.
Definition upper (s : string) : string := smap upper_char s.

(** [s[:n]]. *)
Fixpoint take (n : nat) (s : string) : string :=
  match n, s with
  | S k, String c s' => String c (take k s')
  | _, _ => EmptyString
  end.

(** [s.replace(c, "")] for a one-character pattern [c]. *)
Fixpoint remove_char (x : ascii) (s : string) : string :=
  match s with
  | EmptyString => EmptyString
  | String c s' =>
      if Ascii.eqb c x then remove_char x s' else String c (remove_char x s')
  end.

(** [bool(s)]: a string is truthy when it is not empty. *)
Definition truthy (s : string) : bool :=
  match s with EmptyString => false | String _ _ => true end.

(** [s.startswith(p)]. *)
Fixpoint starts_with (p s : string) : bool :=
  match p, s with
  | EmptyString, _ => true
  | String a p', String b s' => Ascii.eqb a b && starts_with p' s'
  | String _ _, EmptyString => false
  end.

(** [needle in hay]. *)
Fixpoint contains (needle hay : string) : bool :=
  starts_with needle hay
  || match hay with
     | EmptyString => false
     | String _ hay' => contains needle hay'
     end.

(** [s.lstrip()], [s.rstrip()] and [s.strip()]. *)
Fixpoint lstrip (s : string) : string :=
  match s with
  | EmptyString => EmptyString
  | String c s' => if is_space c then lstrip s' else s
  end.

Fixpoint rstrip (s : string) : string :=
  match s with
  | EmptyString => EmptyString
  | String c s' =>
      let r := rstrip s' in
      if is_space c && negb (truthy r) then EmptyString else String c r
  end.

Definition strip (s : string) : string := rstrip (lstrip s).

(** [s.split(sep)] for a non-empty separator: the text is cut at every
    occurrence of [sep], scanning from the left; [skip] counts the
    characters of a separator just matched that are still to be passed. *)
Fixpoint split_go (sep : string) (skip : nat) (s : string) : list string :=
  match s with
  | EmptyString => [EmptyString]
  | String c s' =>
      match skip with
      | S k => split_go sep k s'
      | O =>
          if starts_with sep s
          then EmptyString :: split_go sep (String.length sep - 1) s'
          else match split_go sep 0 s' with
               | [] => [String c EmptyString]
               | h :: t => String c h :: t
               end
      end
  end.

Definition split (sep s : string) : list string := split_go sep 0 s.

(** [sep.join(l)]. *)
Fixpoint join (sep : string) (l : list string) : string :=
  match l with
  | [] => EmptyString
  | [x] => x
  | x :: l' => x +:+ sep +:+ join sep l'
  end.

End PyStr.

(** ** The normalizer ([normalizer.py]) *)

(** An item object of the marketplace library, with the attributes the
    normalizer reads.  [vid] is [str(vinted_item.id)], the only form in
    which the identifier is used; [brand_title], [size_title] and [photo]
    are [None] when the attribute is [None]; [created_at_ts] is the
    [isoformat()] rendering of the attribute, [None] when the object has
    no such attribute; [price] is the text handed to [float()]. *)
Record VintedItem := {
  vid : string;
  title : string;
  price : string;
  brand_title : option string;
  size_title : option string;
  created_at_ts : option string;
  url : string;
  photo : option string
}.

Module VintedNormalizer.

(** [generate_sku(vinted_item_id, brand=None)]. *)
Definition brand_code (brand : string) : string :=
  PyStr.remove_char " " (PyStr.upper (PyStr.take 3 brand)).

Definition generate_sku (vinted_item_id : string) (brand : option string) : string :=
  let prefix :=
    match brand with
    | Some b => if PyStr.truthy b then "VINT-" +:+ brand_code b else "VINT"
    | None => "VINT"
    end in
  prefix +:+ "-" +:+ vinted_item_id.

(** [can_import_item(vinted_item, allowlist=None, banwords=None)]; the
    allow-list is never looked at. *)
Fixpoint first_banword (title_lower : string) (banwords : list string) : option string :=
  match banwords with
  | [] => None
  | word :: rest =>
      if PyStr.contains (PyStr.lower word) title_lower then Some word
      else first_banword title_lower rest
  end.

Definition can_import_item (vinted_item : VintedItem) (banwords : option (list string))
  : bool * option string :=
  match banwords with
  | Some (w :: ws) =>
      let title_lower := PyStr.lower (title vinted_item) in
      match first_banword title_lower (w :: ws) with
      | Some word => (false, Some ("Title contains banword: " +:+ word))
      | None => (true, None)
      end
  | _ => (true, None)
  end.

End VintedNormalizer.

(** ** Exceptions and state *)

(** A computation either returns a value or raises an exception, whose text
    ([str(e)]) is kept; the state reached is kept in both cases, as
    mutations made before a [raise] stay visible to the handler. *)
Inductive outcome (A : Type) : Type :=
| Ret (a : A)
| Raise (e : string).
Arguments Ret {A} a.
Arguments Raise {A} e.

Definition M (S A : Type) : Type := S -> outcome A * S.

Definition ret {S A} (a : A) : M S A := fun s => (Ret a, s).

Definition raise {S A} (e : string) : M S A := fun s => (Raise e, s).

Definition bind {S A B} (m : M S A) (k : A -> M S B) : M S B :=
  fun s =>
    match m s with
    | (Ret a, s') => k a s'
    | (Raise e, s') => (Raise e, s')
    end.

(** [try: body / except Exception as e: handler]. *)
Definition try_except {S A} (body : M S A) (handler : string -> M S A) : M S A :=
  fun s =>
    match body s with
    | (Ret a, s') => (Ret a, s')
    | (Raise e, s') => handler e s'
    end.

Definition get {S} : M S S := fun s => (Ret s, s).
Definition put {S} (s : S) : M S unit := fun _ => (Ret tt, s).
Definition modify {S} (f : S -> S) : M S unit := fun s => (Ret tt, f s).

Declare Scope py_scope.
Delimit Scope py_scope with py.
Notation "x <- c ;; k" := (bind c (fun x => k))
  (at level 100, c at next level, right associativity) : py_scope.
Notation "c ;;; k" := (bind c (fun _ => k))
  (at level 100, right associativity) : py_scope.
Notation "'try' b 'except' e => h" := (try_except b (fun e => h))
  (at level 100, b at level 200, e name, h at level 200) : py_scope.

(** [for x in l: body x]. *)
Fixpoint for_each {S A} (l : list A) (body : A -> M S unit) : M S unit :=
  match l with
  | [] => ret tt
  | x :: l' => bind (body x) (fun _ => for_each l' body)
  end.

Definition opt_truthy (o : option string) : bool :=
  match o with Some s => PyStr.truthy s | None => false end.

Section Dashboard.

(** Python floats are taken as parameters: [float_of_str] is [float(x)]
    ([None] when it raises), [fmul_tenth] is [x * 0.10] and [round2] is
    [round(x, 2)]. *)
Context {float : Type}.
Variable float_of_str : string -> option float.
Variable fmul_tenth : float -> float.
Variable round2 : float -> float.

(** The mapping built by [normalize_item], which is also the shape of a
    row of the [items] table.  The columns the store fills in by itself
    are not modelled: nothing in scope reads them. *)
Record ItemData := {
  sku : string;
  item_name : string;
  category : option string;
  size : option string;
  condition : string;
  brand : string;
  platforms : list string;
  listing_status : string;
  purchase_price : option float;
  fees_estimate : float;
  shipping_paid_by : string;
  shipping_cost : Z;
  sale_price : float;
  date_purchased : option string;
  date_listed : option string;
  date_sold : option string;
  location : option string;
  notes : string;
  photos : list string;
  vinted_item_id : string;
  vinted_query_id : Z
}.

(** [normalize_item(vinted_item, query_id)]: every exception of the body
    is caught and turned into [None]; the only step that can raise on a
    [VintedItem] is the conversion of the price. *)
Definition normalize_item (vinted_item : VintedItem) (query_id : Z) : option ItemData :=
  let sku := VintedNormalizer.generate_sku (vid vinted_item) (brand_title vinted_item) in
  let condition := "Good" in
  match float_of_str (price vinted_item) with
  | None => None
  | Some price =>
      let fees_estimate := round2 (fmul_tenth price) in
      Some {|
        sku := sku;
        item_name := title vinted_item;
        category := None;
        size := if opt_truthy (size_title vinted_item) then size_title vinted_item else None;
        condition := condition;
        brand := if opt_truthy (brand_title vinted_item)
                 then default "" (brand_title vinted_item) else "Unknown";
        platforms := ["Vinted"];
        listing_status := "Draft";
        purchase_price := None;
        fees_estimate := fees_estimate;
        shipping_paid_by := "Buyer";
        shipping_cost := 0;
        sale_price := price;
        date_purchased := None;
        date_listed := created_at_ts vinted_item;
        date_sold := None;
        location := None;
        notes := "Imported from Vinted. Original URL: " +:+ url vinted_item;
        photos := if opt_truthy (photo vinted_item)
                  then [default "" (photo vinted_item)] else [];
        vinted_item_id := vid vinted_item;
        vinted_query_id := query_id
      |}
  end.

(** The dictionary returned by [sync_query]; [items] and [message] are
    [None] when the key is not in the dictionary. *)
Record SyncResult := {
  success : bool;
  imported : nat;
  skipped : nat;
  errors : nat;
  items : option (list ItemData);
  message : option string
}.

(** A row of [vinted_integration_logs]. *)
Inductive LogPayload :=
| ImportedPayload (vinted_id sku : string)
| SyncPayload (query_id : Z) (results : SyncResult)
| ErrorPayload (query_id : Z) (error : string).

Record LogRow := {
  event_type : string;
  status : string;
  log_message : string;
  data : option LogPayload
}.

(** Ghost history: the calls made into the marketplace library and into
    the database layer, oldest first. *)
Inductive Call :=
| CallSearch (url : string) (nbr_items : Z)
| CallGetSetting (key : string)
| CallSetSetting (key value : string)
| CallGetItemByVintedId (vinted_item_id : string)
| CallCreateItem (item_data : ItemData)
| CallLogEvent (row : LogRow).

(** The world outside the adapter.  The remote store is an ideal table
    service; whatever makes one of its requests fail (outage, refusal,
    constraint) is scripted in [faults]: each request takes the head of
    the script and raises when it is [Some e].  An empty script means no
    failure. *)
Record World := {
  env_url : option string;
  env_key : option string;
  supabase_client : option (string * string);
  settings : gmap string string;
  items_table : list ItemData;
  logs_table : list LogRow;
  faults : list (option string);
  market : string -> Z -> string + list VintedItem;
  clock : Z;
  calls : list Call
}.

Definition set_client (c : option (string * string)) (w : World) : World :=
  {| env_url := env_url w; env_key := env_key w; supabase_client := c;
     settings := settings w; items_table := items_table w;
     logs_table := logs_table w; faults := faults w; market := market w;
     clock := clock w; calls := calls w |}.

Definition set_settings (m : gmap string string) (w : World) : World :=
  {| env_url := env_url w; env_key := env_key w;
     supabase_client := supabase_client w;
     settings := m; items_table := items_table w;
     logs_table := logs_table w; faults := faults w; market := market w;
     clock := clock w; calls := calls w |}.

Definition set_items_table (l : list ItemData) (w : World) : World :=
  {| env_url := env_url w; env_key := env_key w;
     supabase_client := supabase_client w;
     settings := settings w; items_table := l;
     logs_table := logs_table w; faults := faults w; market := market w;
     clock := clock w; calls := calls w |}.

Definition set_logs_table (l : list LogRow) (w : World) : World :=
  {| env_url := env_url w; env_key := env_key w;
     supabase_client := supabase_client w;
     settings := settings w; items_table := items_table w;
     logs_table := l; faults := faults w; market := market w;
     clock := clock w; calls := calls w |}.

Definition set_faults (l : list (option string)) (w : World) : World :=
  {| env_url := env_url w; env_key := env_key w;
     supabase_client := supabase_client w;
     settings := settings w; items_table := items_table w;
     logs_table := logs_table w; faults := l; market := market w;
     clock := clock w; calls := calls w |}.


Definition set_calls (l : list Call) (w : World) : World :=
  {| env_url := env_url w; env_key := env_key w;
     supabase_client := supabase_client w;
     settings := settings w; items_table := items_table w;
     logs_table := logs_table w; faults := faults w; market := market w;
     clock := clock w; calls := l |}.

Definition note (c : Call) : M World unit :=
  modify (fun w => set_calls (calls w ++ [c]) w).

(** One request to the remote store ([....execute()]). *)
Definition execute {A} (effect : M World A) : M World A :=
  fun w =>
    match faults w with
    | Some e :: script => (Raise e, set_faults script w)
    | None :: script => effect (set_faults script w)
    | [] => effect w
    end.

Local Open Scope py_scope.

(** *** The database layer ([database.py]) *)

Definition config_missing : string :=
  "SUPABASE_URL and SUPABASE_ANON_KEY environment variables required".

(** [get_supabase()]: the client is created on first use and kept. *)
Definition get_supabase : M World (string * string) :=
  w <- get ;;
  match supabase_client w with
  | Some c => ret c
  | None =>
      let url := env_url w in
      let key := env_key w in
      if negb (opt_truthy url) || negb (opt_truthy key)
      then raise config_missing
      else
        let c := (default "" url, default "" key) in
        (put (set_client (Some c) w) ;;; ret c)
  end.

(** [get_setting(key)]. *)
Definition get_setting (key : string) : M World (option string) :=
  note (CallGetSetting key) ;;;
  try (supabase <- get_supabase ;;
       result <- execute (w <- get ;; ret (settings w !! key)) ;;
       ret result)
  except e => ret None.

(** [set_setting(key, value)]; the adapter never passes a description. *)
Definition set_setting (key value : string) : M World bool :=
  note (CallSetSetting key value) ;;;
  try (supabase <- get_supabase ;;
       execute (modify (fun w => set_settings (<[key := value]> (settings w)) w)) ;;;
       ret true)
  except e => ret false.

(** The answer to [.eq('vinted_item_id', v).maybeSingle()]: the matching
    row, no data when there is none, an error when there are several. *)
Definition maybe_single (rows : list ItemData) : M World (option ItemData) :=
  match rows with
  | [] => ret None
  | [row] => ret (Some row)
  | _ => raise "JSON object requested, multiple (or no) rows returned"
  end.

(** [get_item_by_vinted_id(vinted_item_id)]. *)
Definition get_item_by_vinted_id (vinted_id : string) : M World (option ItemData) :=
  note (CallGetItemByVintedId vinted_id) ;;;
  try (supabase <- get_supabase ;;
       result <- execute
         (w <- get ;;
          maybe_single
            (filter (fun row => vinted_item_id row = vinted_id) (items_table w))) ;;
       ret result)
  except e => ret None.

(** [create_item(item_data)]: the store answers with the row it has
    stored. *)
Definition create_item (item_data : ItemData) : M World (option ItemData) :=
  note (CallCreateItem item_data) ;;;
  try (supabase <- get_supabase ;;
       result <- execute
         (modify (fun w => set_items_table (items_table w ++ [item_data]) w) ;;;
          ret [item_data]) ;;
       ret (head result))
  except e => ret None.

(** [log_vinted_event(event_type, status, message, data=None)]. *)
Definition log_vinted_event (event_type status message : string)
    (data : option LogPayload) : M World bool :=
  let log_data :=
    {| event_type := event_type; status := status;
       log_message := message; data := data |} in
  note (CallLogEvent log_data) ;;;
  try (supabase <- get_supabase ;;
       execute (modify (fun w => set_logs_table (logs_table w ++ [log_data]) w)) ;;;
       ret true)
  except e => ret false.

(** *** The adapter ([adapter.py]) *)

(** The adapter object: its client and its normalizer hold no state. *)
Record VintedAdapter := { enabled : bool }.



(** [self.vinted_client.items.search(query_url, nbr_items=items_limit)]. *)
Definition search (query_url : string) (nbr_items : Z) : M World (list VintedItem) :=
  note (CallSearch query_url nbr_items) ;;;
  w <- get ;;
  match market w query_url nbr_items with
  | inl e => raise e
  | inr vinted_items => ret vinted_items
  end.

(** A mutable local object (the [result] dictionary of [sync_query], or
    [self]) is held next to the world. *)
Definition in_world {L A} (m : M World A) : M (L * World) A :=
  fun f =>
    match m (snd f) with
    | (o, w') => (o, (fst f, w'))
    end.

Definition get_local {L} : M (L * World) L :=
  fun f => (Ret (fst f), f).

Definition update_local {L} (g : L -> L) : M (L * World) unit :=
  fun f => (Ret tt, (g (fst f), snd f)).

(** Runs [m] on a local object that starts as [l] and hands the object
    back with the value returned. *)
Definition with_local {L A} (l : L) (m : M (L * World) A) : M World (A * L) :=
  fun w =>
    match m (l, w) with
    | (Ret a, (l', w')) => (Ret (a, l'), w')
    | (Raise e, (_, w')) => (Raise e, w')
    end.

Definition Frame : Type := SyncResult * World.

Definition initial_result : SyncResult :=
  {| success := true; imported := 0; skipped := 0; errors := 0;
     items := Some []; message := None |}.

Definition disabled_result : SyncResult :=
  {| success := false; imported := 0; skipped := 0; errors := 0;
     items := None; message := Some "Integration disabled" |}.

Definition incr_imported (r : SyncResult) : SyncResult :=
  {| success := success r; imported := S (imported r); skipped := skipped r;
     errors := errors r; items := items r; message := message r |}.

Definition incr_skipped (r : SyncResult) : SyncResult :=
  {| success := success r; imported := imported r; skipped := S (skipped r);
     errors := errors r; items := items r; message := message r |}.

Definition incr_errors (r : SyncResult) : SyncResult :=
  {| success := success r; imported := imported r; skipped := skipped r;
     errors := S (errors r); items := items r; message := message r |}.

(** [result['items'].append(created_item)]. *)
Definition append_item (row : ItemData) (r : SyncResult) : SyncResult :=
  {| success := success r; imported := imported r; skipped := skipped r;
     errors := errors r;
     items := match items r with Some l => Some (l ++ [row]) | None => None end;
     message := message r |}.

(** [result['success'] = False; result['message'] = str(e)]. *)
Definition mark_failed (e : string) (r : SyncResult) : SyncResult :=
  {| success := false; imported := imported r; skipped := skipped r;
     errors := errors r; items := items r; message := Some e |}.

(** [[w.strip().lower() for w in banwords_str.split('|||') if w.strip()]]. *)
Definition parse_banwords (banwords_str : string) : list string :=
  map (fun w => PyStr.lower (PyStr.strip w))
      (filter (fun w => PyStr.truthy (PyStr.strip w) = true)
              (PyStr.split "|||" banwords_str)).

(** The body of the [for] loop of [sync_query], for one item. *)
Definition sync_item (banwords : list string) (query_id : Z)
    (vinted_item : VintedItem) : M Frame unit :=
  try
    (let '(should_import, reason) :=
       VintedNormalizer.can_import_item vinted_item (Some banwords) in
     if negb should_import then update_local incr_skipped
     else
       existing <- in_world (get_item_by_vinted_id (vid vinted_item)) ;;
       match existing with
       | Some _ => update_local incr_skipped
       | None =>
           match normalize_item vinted_item query_id with
           | None => update_local incr_errors
           | Some normalized_item =>
               created_item <- in_world (create_item normalized_item) ;;
               match created_item with
               | Some created =>
                   update_local incr_imported ;;;
                   update_local (append_item created) ;;;
                   in_world
                     (log_vinted_event "item_imported" "Success"
                        ("Imported item " +:+ title vinted_item)
                        (Some (ImportedPayload (vid vinted_item) (sku created)))) ;;;
                   ret tt
               | None => update_local incr_errors
               end
           end
       end)
  except e => update_local incr_errors.

Definition sync_summary (query_id : Z) (r : SyncResult) : string :=
  "Synced query " +:+ pretty query_id +:+ ": "
    +:+ pretty (imported r) +:+ " imported, "
    +:+ pretty (skipped r) +:+ " skipped, "
    +:+ pretty (errors r) +:+ " errors".

(** [sync_query(query_url, query_id, items_limit)]. *)
Definition sync_query_body (query_url : string) (query_id items_limit : Z)
  : M Frame unit :=
  try
    (vinted_items <- in_world (search query_url items_limit) ;;
     banwords_str <- in_world (get_setting "banwords") ;;
     let banwords := parse_banwords (default "" banwords_str) in
     for_each vinted_items (sync_item banwords query_id) ;;;
     now <- in_world (w <- get ;; ret (clock w)) ;;
     in_world (set_setting "vinted_last_sync" (pretty now)) ;;;
     result <- get_local ;;
     in_world
       (log_vinted_event "query_sync" "Success"
          (sync_summary query_id result)
          (Some (SyncPayload query_id result))) ;;;
     ret tt)
  except e =>
    (update_local (mark_failed e) ;;;
     in_world
       (log_vinted_event "query_sync" "Error"
          ("Failed to sync query " +:+ pretty query_id +:+ ": " +:+ e)
          (Some (ErrorPayload query_id e))) ;;;
     ret tt).

Definition sync_query (self : VintedAdapter) (query_url : string)
    (query_id items_limit : Z) : M World SyncResult :=
  if negb (enabled self) then ret disabled_result
  else
    done <- with_local initial_result
              (sync_query_body query_url query_id items_limit) ;;
    ret (snd done).

(** [enable_integration()] and [disable_integration()], with [self] as
    the local object. *)
Definition set_enabled (b : bool) (self : VintedAdapter) : VintedAdapter :=
  {| enabled := b |}.

Definition enable_integration : M (VintedAdapter * World) bool :=
  try
    (in_world (set_setting "vinted_integration_enabled" "true") ;;;
     update_local (set_enabled true) ;;;
     in_world
       (log_vinted_event "integration_enabled" "Success"
          "Vinted integration enabled" None) ;;;
     ret true)
  except e => ret false.

Definition disable_integration : M (VintedAdapter * World) bool :=
  try
    (in_world (set_setting "vinted_integration_enabled" "false") ;;;
     update_local (set_enabled false) ;;;
     in_world
       (log_vinted_event "integration_disabled" "Success"
          "Vinted integration disabled" None) ;;;
     ret true)
  except e => ret false.

End Dashboard.

(** ** A concrete instance, for running the model

    Floats are kept symbolic: a float is the text of the expression that
    computes it.  [float()] is taken to accept the texts made of digits
    and dots. *)
Module Demo.

Definition is_digit_or_dot (c : ascii) : bool :=
  ((48 <=? PyStr.code c)%N && (PyStr.code c <=? 57)%N) || Ascii.eqb c ".".

Fixpoint all_chars (p : ascii -> bool) (s : string) : bool :=
  match s with
  | EmptyString => true
  | String c s' => p c && all_chars p s'
  end.

Definition float_of_str (s : string) : option string :=
  if PyStr.truthy s && all_chars is_digit_or_dot s then Some s else None.

Definition fmul_tenth (x : string) : string := x +:+ " * 0.10".

Definition round2 (x : string) : string := "round(" +:+ x +:+ ", 2)".

Definition item (id title price : string) (brand : option string) : VintedItem :=
  {| vid := id; title := title; price := price; brand_title := brand;
     size_title := None; created_at_ts := None;
     url := "https://www.vinted.co.uk/items/" +:+ id; photo := None |}.

Definition listing : list VintedItem :=
  [item "1" "Fake Nike Shoes" "20" None; item "2" "Nike Shoes" "20" None].

(** A configured store with the ban-word setting [fake], whose requests
    fail as [script] says, and a marketplace that answers every search
    with [answer]. *)
Definition world (script : list (option string))
    (answer : string + list VintedItem) : World (float := string) :=
  {| env_url := Some "https://store.example"; env_key := Some "anon";
     supabase_client := None;
     settings := {[ "banwords" := "fake" ]};
     items_table := []; logs_table := [];
     faults := script;
     market := fun _ _ => answer;
     clock := 1700000000;
     calls := [] |}.

(** The row [normalize_item] makes of the second item of [listing]. *)
Definition row : ItemData (float := string) :=
  {| sku := "VINT-2"; item_name := "Nike Shoes"; category := None;
     size := None; condition := "Good"; brand := "Unknown";
     platforms := ["Vinted"]; listing_status := "Draft";
     purchase_price := None; fees_estimate := "round(20 * 0.10, 2)";
     shipping_paid_by := "Buyer"; shipping_cost := 0; sale_price := "20";
     date_purchased := None; date_listed := None; date_sold := None;
     location := None;
     notes := "Imported from Vinted. Original URL: https://www.vinted.co.uk/items/2";
     photos := []; vinted_item_id := "2"; vinted_query_id := 7 |}.

(** The same world before any client exists, with no access key in the
    environment. *)
Definition world_without_key : World (float := string) :=
  {| env_url := Some "https://store.example"; env_key := None;
     supabase_client := None;
     settings := {[ "banwords" := "fake" ]};
     items_table := []; logs_table := [];
     faults := [];
     market := fun _ _ => inr listing;
     clock := 1700000000;
     calls := [] |}.

Definition search_url : string :=
  "https://www.vinted.co.uk/catalog?search_text=nike".

Definition on : VintedAdapter := {| enabled := true |}.
Definition off : VintedAdapter := {| enabled := false |}.

Definition sync (self : VintedAdapter) (w : World) :=
  sync_query float_of_str fmul_tenth round2 self search_url 7 20 w.

End Demo.

(** ** Notions used to state the properties *)

(** No character of [s] satisfies [p]. *)
Fixpoint none_char (p : ascii -> bool) (s : string) : bool :=
  match s with
  | EmptyString => true
  | String c s' => negb (p c) && none_char p s'
  end.




Section StoreNotions.

Context {float : Type}.
Implicit Types w : World (float := float).

(** A client exists or can be created from the environment. *)
Definition connected w : bool :=
  match supabase_client w with
  | Some _ => true
  | None => opt_truthy (env_url w) && opt_truthy (env_key w)
  end.

(** The next request to the store goes through. *)
Definition store_ready w : bool :=
  connected w
  && match faults w with
     | Some _ :: _ => false
     | _ => true
     end.

(** Every request to come goes through. *)
Definition reliable w : bool :=
  connected w
  && forallb (fun f => match f with None => true | Some _ => false end) (faults w).

Definition client_of w : string * string :=
  match supabase_client w with
  | Some c => c
  | None => (default "" (env_url w), default "" (env_key w))
  end.

(** The world after a call [c] to the database layer that changes no
    table: the call is on record, the client is in place and one entry
    of the fault script is used up when the store could be reached. *)
Definition after_call (c : Call) w : World :=
  let w1 := set_calls (calls w ++ [c]) w in
  if connected w
  then set_faults (tail (faults w)) (set_client (Some (client_of w)) w1)
  else w1.

(** The rows of the inventory held for an external id. *)
Definition rows_with_vinted_id (v : string) w : list ItemData :=
  filter (fun row => vinted_item_id row = v) (items_table w).


(** What the single-row lookup by external id answers. *)
Definition lookup_answer (v : string) w : option ItemData :=
  if store_ready w
  then match rows_with_vinted_id v w with
       | [row] => Some row
       | _ => None
       end
  else None.

(** The worlds left by [set_setting], [create_item] and
    [log_vinted_event]: the table changes when the request goes through. *)
Implicit Types d : ItemData (float := float).
Implicit Types row : LogRow (float := float).
Implicit Types c : Call (float := float).

Definition stored (k v : string) w : World :=
  let w' := after_call (CallSetSetting k v) w in
  if store_ready w then set_settings (<[k := v]> (settings w)) w' else w'.

Definition created (d : ItemData) w : World :=
  let w' := after_call (CallCreateItem d) w in
  if store_ready w then set_items_table (items_table w ++ [d]) w' else w'.

Definition logged (row : LogRow) w : World :=
  let w' := after_call (CallLogEvent row) w in
  if store_ready w then set_logs_table (logs_table w ++ [row]) w' else w'.

Definition import_log_row (it : VintedItem) (d : ItemData (float := float))
  : LogRow (float := float) :=
  {| event_type := "item_imported"; status := "Success";
     log_message := "Imported item " +:+ title it;
     data := Some (ImportedPayload (vid it) (sku d)) |}.

(** The world after the call into the marketplace library. *)
Definition searched (query_url : string) (nbr_items : Z) w : World :=
  set_calls (calls w ++ [CallSearch query_url nbr_items]) w.

(** The ban-words [sync_query] works with in world [w]. *)
Definition banwords_in w : list string :=
  parse_banwords
    (default "" (if store_ready w then settings w !! "banwords" else None)).

(** The two [query_sync] events. *)
Definition summary_row (query_id : Z) (r : SyncResult (float := float))
  : LogRow (float := float) :=
  {| event_type := "query_sync"; status := "Success";
     log_message := sync_summary query_id r;
     data := Some (SyncPayload query_id r) |}.

Definition error_row (query_id : Z) (e : string) : LogRow (float := float) :=
  {| event_type := "query_sync"; status := "Error";
     log_message := "Failed to sync query " +:+ pretty query_id +:+ ": " +:+ e;
     data := Some (ErrorPayload query_id e) |}.

(** The number of items counted by a result. *)
Definition tally (r : SyncResult (float := float)) : nat :=
  imported r + skipped r + errors r.

(** The calls the loop body makes: look-ups, insertions and
    [item_imported] events. *)
Definition item_call c : bool :=
  match c with
  | CallGetItemByVintedId _ | CallCreateItem _ => true
  | CallLogEvent row => bool_decide (event_type row = "item_imported")
  | _ => false
  end.

End StoreNotions.


(** Runs of a loop whose body takes the state from [s] to [s'] as [step]
    says, element after element. *)
Inductive steps {S A : Type} (step : A -> S -> S -> Prop) : list A -> S -> S -> Prop :=
| steps_nil s : steps step [] s s
| steps_cons x l s s' s'' :
    step x s s' -> steps step l s' s'' -> steps step (x :: l) s s''.

Section LoopNotions.

Context {float : Type}.
Variable float_of_str : string -> option float.
Variable fmul_tenth : float -> float.
Variable round2 : float -> float.

(** The five ways the loop body of [sync_query] deals with one item. *)
Inductive item_step (banwords : list string) (query_id : Z) (it : VintedItem)
  : Frame (float := float) -> Frame (float := float) -> Prop :=
| item_banned r w :
    fst (VintedNormalizer.can_import_item it (Some banwords)) = false ->
    item_step banwords query_id it (r, w) (incr_skipped r, w)
| item_known r w row :
    fst (VintedNormalizer.can_import_item it (Some banwords)) = true ->
    lookup_answer (vid it) w = Some row ->
    item_step banwords query_id it (r, w)
      (incr_skipped r, after_call (CallGetItemByVintedId (vid it)) w)
| item_not_normalized r w :
    fst (VintedNormalizer.can_import_item it (Some banwords)) = true ->
    lookup_answer (vid it) w = None ->
    normalize_item float_of_str fmul_tenth round2 it query_id = None ->
    item_step banwords query_id it (r, w)
      (incr_errors r, after_call (CallGetItemByVintedId (vid it)) w)
| item_not_created r w d :
    fst (VintedNormalizer.can_import_item it (Some banwords)) = true ->
    lookup_answer (vid it) w = None ->
    normalize_item float_of_str fmul_tenth round2 it query_id = Some d ->
    store_ready (after_call (CallGetItemByVintedId (vid it)) w) = false ->
    item_step banwords query_id it (r, w)
      (incr_errors r,
       created d (after_call (CallGetItemByVintedId (vid it)) w))
| item_imported r w d :
    fst (VintedNormalizer.can_import_item it (Some banwords)) = true ->
    lookup_answer (vid it) w = None ->
    normalize_item float_of_str fmul_tenth round2 it query_id = Some d ->
    store_ready (after_call (CallGetItemByVintedId (vid it)) w) = true ->
    item_step banwords query_id it (r, w)
      (append_item d (incr_imported r),
       logged (import_log_row it d)
         (created d (after_call (CallGetItemByVintedId (vid it)) w))).






End LoopNotions.

Fixpoint count_if {A : Type} (p : A -> bool) (l : list A) : nat :=
  match l with
  | [] => 0
  | x :: l' => (if p x then 1 else 0) + count_if p l'
  end.

(** ** More of the normalizer, the database layer and the adapter *)

(** [normalize_user_country(profile_id, country_code)]. *)
Record UserCountry := {
  profile_id : string;
  country_code : string
}.

Definition normalize_user_country (pid : string) (code : option string) : UserCountry :=
  {| profile_id := pid;
     country_code := if opt_truthy code then PyStr.upper (default "" code) else "XX" |}.

Section MoreDashboard.

Context {float : Type}.

(** The numbers of [get_items_stats] are taken as parameters: [number] is
    the type of the running total, [zero] the integer [0] the sum starts
    from, [add_float] the addition of a float, [round_number] is
    [round(x, 2)], and [profit_float row] is [float(item['profit'] or 0)]
    for the [profit] column the store keeps for the row. *)
Variable number : Type.
Variable zero : number.
Variable add_float : number -> float -> number.
Variable round_number : number -> number.
Variable profit_float : ItemData (float := float) -> float.

(** [datetime.fromtimestamp(float(s)).isoformat()], [None] when it raises. *)
Variable iso_of_timestamp : string -> option string.

Local Open Scope py_scope.

(** [get_all_settings()]; the call is not put on record in [calls], which
    follows the operations the adapter goes through. *)
Definition get_all_settings : M (World (float := float)) (gmap string string) :=
  try (supabase <- get_supabase ;;
       result <- execute (w <- get ;; ret (settings w)) ;;
       ret result)
  except e => ret ∅.

(** The dictionary returned by [get_items_stats]. *)
Record ItemsStats := {
  total_items : nat;
  listed : nat;
  sold : nat;
  draft : nat;
  total_profit : number
}.

(** [sum(1 for item in rows if item['listing_status'] == status)]. *)
Definition count_status (status : string) (rows : list (ItemData (float := float))) : nat :=
  length (filter (fun item => listing_status item = status) rows).

(** [get_items_stats()]; not put on record in [calls] either. *)
Definition get_items_stats : M (World (float := float)) ItemsStats :=
  try (supabase <- get_supabase ;;
       all_items <- execute (w <- get ;; ret (items_table w)) ;;
       let total := length all_items in
       let listed := count_status "Listed" all_items in
       let sold := count_status "Sold" all_items in
       let draft := count_status "Draft" all_items in
       let total_profit :=
         fold_left add_float
           (map profit_float
              (filter (fun item => listing_status item = "Sold") all_items))
           zero in
       ret {| total_items := total; listed := listed; sold := sold;
              draft := draft; total_profit := round_number total_profit |})
  except e =>
    ret {| total_items := 0; listed := 0; sold := 0; draft := 0;
           total_profit := zero |}.

(** [is_enabled()]. *)
Definition is_enabled (self : VintedAdapter) : bool := enabled self.

(** The dictionary returned by [get_status]. *)
Record Status := {
  status_enabled : bool;
  last_sync : option string;
  sync_interval : string
}.

(** [get_status()]. *)
Definition get_status (self : VintedAdapter) : M (World (float := float)) Status :=
  last_sync <- get_setting "vinted_last_sync" ;;
  let last_sync_time :=
    if opt_truthy last_sync && negb (bool_decide (last_sync = Some "0"))
    then iso_of_timestamp (default "" last_sync)
    else None in
  interval <- get_setting "vinted_sync_interval" ;;
  ret {| status_enabled := enabled self;
         last_sync := last_sync_time;
         sync_interval := if opt_truthy interval then default "" interval else "60" |}.

End MoreDashboard.

Arguments total_items {number} _.
Arguments listed {number} _.
Arguments sold {number} _.
Arguments draft {number} _.
Arguments total_profit {number} _.

(** What a call that reads without being put on record leaves of the
    world: the tables, the history and the clock; the client may have been
    created and one entry of the fault script used up. *)
Definition unchanged_but_for_the_connection {float : Type}
    (w w' : World (float := float)) : Prop :=
  settings w' = settings w
  /\ items_table w' = items_table w
  /\ logs_table w' = logs_table w
  /\ calls w' = calls w
  /\ clock w' = clock w
  /\ (reliable w = true -> reliable w' = true).

(** [s[n:]]. *)
Fixpoint str_drop (n : nat) (s : string) : string :=
  match n, s with
  | S k, String _ s' => str_drop k s'
  | _, _ => s
  end.


(** A stand-in for the rendering of a timestamp on the concrete instance. *)
Definition demo_iso (s : string) : option string :=
  if Demo.all_chars Demo.is_digit_or_dot s then Some ("iso:" +:+ s) else None.

(** A listing that repeats an external id, for the concrete instance. *)
Definition demo_repeats : list VintedItem :=
  [Demo.item "5" "Levi jeans" "15" (Some "Levi's");
   Demo.item "5" "Levi jeans" "15" (Some "Levi's");
   Demo.item "6" "Scarf" "n/a" None].

(** * Properties *)

(** ** Strings *)

Section StringFacts.

Import PyStr.

Lemma append_nil_r (s : string) : s +:+ "" = s.
Proof. induction s; simpl; congruence. Qed.


Lemma starts_with_iff (p s : string) :
  starts_with p s = true <-> exists t, s = p +:+ t.
Proof.
  revert s. induction p as [|a p IH]; intros s; simpl.
  - split; eauto.
  - destruct s as [|b s].
    + split; [discriminate | intros [t Ht]; discriminate].
    + rewrite andb_true_iff, Ascii.eqb_eq, IH. split.
      * intros [-> [t ->]]. eauto.
      * intros [t Ht]. injection Ht as -> ->. eauto.
Qed.

(** [needle in hay] holds exactly when [hay] is some text, then
    [needle], then some text. *)
Lemma contains_iff (needle hay : string) :
  contains needle hay = true <->
  exists pre post, hay = pre +:+ needle +:+ post.
Proof.
  induction hay as [|c hay IH]; simpl.
  - rewrite orb_false_r, starts_with_iff. split.
    + intros [t Ht]. exists "", t. exact Ht.
    + intros [pre [post H]]. destruct pre; [eauto | discriminate].
  - rewrite orb_true_iff, starts_with_iff, IH. split.
    + intros [[t Ht] | [pre [post H]]].
      * exists "", t. exact Ht.
      * exists (String c pre), post. simpl. congruence.
    + intros [[|c' pre] [post H]]; simpl in H.
      * left. eauto.
      * right. injection H as -> ->. eauto.
Qed.








Lemma upper_char_not_lower (c : ascii) : is_lower (upper_char c) = false.
Proof. destruct c as [[] [] [] [] [] [] [] []]; reflexivity. Qed.



Lemma none_lower_upper (s : string) : none_char is_lower (upper s) = true.
Proof.
  unfold upper. induction s as [|c s IH]; simpl; [reflexivity|].
  now rewrite upper_char_not_lower, IH.
Qed.

End StringFacts.

(** ** The normalizer *)

Section NormalizerFacts.

Import PyStr VintedNormalizer.




Lemma can_import_item_eq (it : VintedItem) (banwords : list string) :
  can_import_item it (Some banwords) =
  match first_banword (lower (title it)) banwords with
  | Some word => (false, Some ("Title contains banword: " +:+ word))
  | None => (true, None)
  end.
Proof. destruct banwords; reflexivity. Qed.

End NormalizerFacts.





(** ** The ban-word setting *)

Section SplitFacts.

Import PyStr.

Lemma split_go_nonempty (sep : string) (k : nat) (s : string) :
  split_go sep k s <> [].
Proof.
  revert k. induction s as [|c s IH]; intros k; simpl; [discriminate|].
  destruct k as [|k]; [|apply IH].
  destruct (starts_with sep (String c s)); [discriminate|].
  destruct (split_go sep 0 s); discriminate.
Qed.






End SplitFacts.




(** ** The database layer *)

Section DatabaseFacts.

Context {float : Type}.
Implicit Types w : World (float := float).

Ltac run_db w :=
  destruct w as [url key [cl|] st tb lg [|[err|] fs] mk ck cs];
  try (destruct url as [[|? ?]|]); try (destruct key as [[|? ?]|]);
  reflexivity.

Lemma get_setting_run (k : string) w :
  get_setting k w
  = (Ret (if store_ready w then settings w !! k else None),
     after_call (CallGetSetting k) w).
Proof. run_db w. Qed.

Lemma set_setting_run (k v : string) w :
  set_setting k v w
  = (Ret (store_ready w), stored k v w).
Proof. run_db w. Qed.

Lemma get_item_by_vinted_id_run (v : string) w :
  get_item_by_vinted_id v w
  = (Ret (lookup_answer v w), after_call (CallGetItemByVintedId v) w).
Proof.
  destruct w as [url key [cl|] st tb lg [|[err|] fs] mk ck cs];
    try (destruct url as [[|? ?]|]); try (destruct key as [[|? ?]|]);
    try reflexivity;
    unfold get_item_by_vinted_id, lookup_answer, rows_with_vinted_id,
      store_ready, after_call,
      try_except, bind, note, modify, get_supabase, get, execute, ret, put;
    cbn; destruct (filter _ tb) as [|r1 [|r2 rs]]; reflexivity.
Qed.

Lemma create_item_run (d : ItemData) w :
  create_item d w
  = (Ret (if store_ready w then Some d else None), created d w).
Proof. run_db w. Qed.

Lemma after_call_calls (c : Call) w : calls (after_call c w) = calls w ++ [c].
Proof. unfold after_call. destruct (connected w); reflexivity. Qed.

Lemma after_call_settings (c : Call) w : settings (after_call c w) = settings w.
Proof. unfold after_call. destruct (connected w); reflexivity. Qed.

Lemma after_call_items (c : Call) w : items_table (after_call c w) = items_table w.
Proof. unfold after_call. destruct (connected w); reflexivity. Qed.

Lemma after_call_logs (c : Call) w : logs_table (after_call c w) = logs_table w.
Proof. unfold after_call. destruct (connected w); reflexivity. Qed.

Lemma after_call_clock (c : Call) w : clock (after_call c w) = clock w.
Proof. unfold after_call. destruct (connected w); reflexivity. Qed.

Lemma after_call_market (c : Call) w : market (after_call c w) = market w.
Proof. unfold after_call. destruct (connected w); reflexivity. Qed.

Ltac world_proj :=
  unfold stored, created, logged, searched, after_call;
  repeat match goal with
         | |- context [if ?b then _ else _] => destruct b
         end;
  reflexivity.

Lemma stored_calls (k v : string) w :
  calls (stored k v w) = calls w ++ [CallSetSetting k v].
Proof. world_proj. Qed.

Lemma stored_items (k v : string) w : items_table (stored k v w) = items_table w.
Proof. world_proj. Qed.

Lemma stored_logs (k v : string) w : logs_table (stored k v w) = logs_table w.
Proof. world_proj. Qed.

Lemma stored_settings (k v : string) w :
  settings (stored k v w)
  = if store_ready w then <[k := v]> (settings w) else settings w.
Proof. world_proj. Qed.


Lemma stored_clock (k v : string) w : clock (stored k v w) = clock w.
Proof. world_proj. Qed.

Lemma created_calls (d : ItemData) w :
  calls (created d w) = calls w ++ [CallCreateItem d].
Proof. world_proj. Qed.

Lemma created_settings (d : ItemData) w : settings (created d w) = settings w.
Proof. world_proj. Qed.

Lemma created_logs (d : ItemData) w : logs_table (created d w) = logs_table w.
Proof. world_proj. Qed.

Lemma created_clock (d : ItemData) w : clock (created d w) = clock w.
Proof. world_proj. Qed.

Lemma created_market (d : ItemData) w : market (created d w) = market w.
Proof. world_proj. Qed.

Lemma created_items (d : ItemData) w :
  items_table (created d w)
  = if store_ready w then items_table w ++ [d] else items_table w.
Proof. world_proj. Qed.

Lemma logged_calls (row : LogRow) w :
  calls (logged row w) = calls w ++ [CallLogEvent row].
Proof. world_proj. Qed.

Lemma logged_settings (row : LogRow) w : settings (logged row w) = settings w.
Proof. world_proj. Qed.

Lemma logged_items (row : LogRow) w : items_table (logged row w) = items_table w.
Proof. world_proj. Qed.

Lemma logged_clock (row : LogRow) w : clock (logged row w) = clock w.
Proof. world_proj. Qed.

Lemma logged_market (row : LogRow) w : market (logged row w) = market w.
Proof. world_proj. Qed.

Lemma logged_logs (row : LogRow) w :
  logs_table (logged row w)
  = if store_ready w then logs_table w ++ [row] else logs_table w.
Proof. world_proj. Qed.

Ltac by_cases_on w :=
  destruct w as [url key [cl|] st tb lg [|[err|] fs] mk ck cs];
  try (destruct url as [[|? ?]|]); try (destruct key as [[|? ?]|]);
  cbn; intros; try discriminate; auto.

Lemma reliable_ready w : reliable w = true -> store_ready w = true.
Proof. by_cases_on w. Qed.

Lemma reliable_after_call (c : Call) w :
  reliable w = true -> reliable (after_call c w) = true.
Proof. by_cases_on w. Qed.

Lemma reliable_stored (k v : string) w :
  reliable w = true -> reliable (stored k v w) = true.
Proof. by_cases_on w. Qed.

Lemma reliable_created (d : ItemData) w :
  reliable w = true -> reliable (created d w) = true.
Proof. by_cases_on w. Qed.

Lemma reliable_logged (row : LogRow) w :
  reliable w = true -> reliable (logged row w) = true.
Proof. by_cases_on w. Qed.

Lemma reliable_searched (u : string) (n : Z) w :
  reliable (searched u n w) = reliable w.
Proof. reflexivity. Qed.


Lemma not_connected_not_ready w : connected w = false -> store_ready w = false.
Proof. unfold store_ready. now intros ->. Qed.

Lemma log_vinted_event_run (ev stat msg : string) (pl : option LogPayload) w :
  log_vinted_event ev stat msg pl w
  = (Ret (store_ready w),
     logged {| event_type := ev; status := stat; log_message := msg; data := pl |} w).
Proof. run_db w. Qed.

End DatabaseFacts.

(** C1, as amended.  While no client exists and one of the two environment
    values is absent or empty, [get_supabase] raises the
    configuration-missing error; the store operations catch it: each one
    returns its sentinel ([None] or [False]) and leaves the three tables as
    they are, and so does any operation of their shape, a [try] around
    [get_supabase()] and a body, with an [except] that returns a
    sentinel. *)
Theorem missing_config_gives_sentinels {float : Type} (w : World (float := float))
    (k v : string) (d : ItemData) (ev stat msg : string) (pl : option LogPayload) :
  supabase_client w = None ->
  opt_truthy (env_url w) && opt_truthy (env_key w) = false ->
  get_supabase w = (Raise config_missing, w)
  /\ fst (get_setting k w) = Ret None
  /\ fst (set_setting k v w) = Ret false
  /\ fst (get_item_by_vinted_id k w) = Ret None
  /\ fst (create_item d w) = Ret None
  /\ fst (log_vinted_event ev stat msg pl w) = Ret false
  /\ (forall (A : Type) (body : string * string -> M World A) (sentinel : A),
        try_except (bind get_supabase body) (fun _ => ret sentinel) w
        = (Ret sentinel, w))
  /\ Forall (fun w' => settings w' = settings w
                       /\ items_table w' = items_table w
                       /\ logs_table w' = logs_table w)
       [snd (get_setting k w); snd (set_setting k v w);
        snd (get_item_by_vinted_id k w); snd (create_item d w);
        snd (log_vinted_event ev stat msg pl w)].
Proof.
  intros Hc He.
  assert (Hn : connected w = false) by (unfold connected; now rewrite Hc).
  pose proof (not_connected_not_ready w Hn) as Hr.
  rewrite get_setting_run, set_setting_run, get_item_by_vinted_id_run,
    create_item_run, log_vinted_event_run.
  unfold lookup_answer, stored, created, logged. cbn [fst snd]. rewrite Hr.
  assert (Hg : get_supabase w = (Raise config_missing, w)).
  { unfold get_supabase, bind, get. rewrite Hc.
    apply andb_false_iff in He as [-> | ->]; cbn; rewrite ?orb_true_r; reflexivity. }
  repeat split.
  - exact Hg.
  - intros A body sentinel. unfold try_except, bind. now rewrite Hg.
  - repeat constructor;
      rewrite ?after_call_settings, ?after_call_items, ?after_call_logs; reflexivity.
Qed.

Lemma missing_config_gives_sentinels_witness :
  get_supabase Demo.world_without_key = (Raise config_missing, Demo.world_without_key)
  /\ fst (get_setting "banwords" Demo.world_without_key) = Ret None.
Proof.
  pose proof (missing_config_gives_sentinels Demo.world_without_key
                "banwords" "" Demo.row "" "" "" None eq_refl eq_refl)
    as (H1 & H2 & _).
  split; [exact H1 | exact H2].
Defined.

(** ** The inventory *)

Section InventoryFacts.

Context {float : Type}.
Implicit Types w : World (float := float).









Lemma count_if_mono {A : Type} (p p' : A -> bool) (l : list A) :
  (forall x, p x = true -> p' x = true) -> count_if p l <= count_if p' l.
Proof.
  intros H. induction l as [|x l IH]; cbn; [lia|].
  specialize (H x). destruct (p x), (p' x); lia.
Qed.


End InventoryFacts.

(** ** The sync loop *)

Section SyncFacts.

Context {float : Type}.
Variable float_of_str : string -> option float.
Variable fmul_tenth : float -> float.
Variable round2 : float -> float.

Implicit Types w : World (float := float).
Implicit Types r : SyncResult (float := float).
Implicit Types f : Frame (float := float).

Local Abbreviation normalize := (normalize_item float_of_str fmul_tenth round2).
Local Abbreviation item_body := (sync_item float_of_str fmul_tenth round2).
Local Abbreviation item_rel := (item_step float_of_str fmul_tenth round2).

(** The loop body never raises, and deals with the item in one of the
    five ways. *)
Lemma sync_item_step (bw : list string) (q : Z) (it : VintedItem) f :
  exists f', item_body bw q it f = (Ret tt, f') /\ item_rel bw q it f f'.
Proof.
  destruct f as [r w].
  unfold sync_item, try_except, bind, in_world, update_local, ret. cbn [fst snd].
  destruct (VintedNormalizer.can_import_item it (Some bw)) as [[|] reason] eqn:Hc;
    cbn [negb fst snd].
  - assert (Hc' : fst (VintedNormalizer.can_import_item it (Some bw)) = true)
      by now rewrite Hc.
    rewrite get_item_by_vinted_id_run.
    destruct (lookup_answer (vid it) w) as [row|] eqn:Hl.
    + eexists. split; [reflexivity|]. econstructor; eassumption.
    + destruct (normalize it q) as [d|] eqn:Hn.
      * rewrite create_item_run. cbn [fst snd].
        destruct (store_ready (after_call _ w)) eqn:Hr.
        -- rewrite log_vinted_event_run. cbn [fst snd].
           eexists. split; [reflexivity|]. now apply item_imported.
        -- eexists. split; [reflexivity|]. now apply item_not_created.
      * eexists. split; [reflexivity|]. now apply item_not_normalized.
  - eexists. split; [reflexivity|]. apply item_banned. now rewrite Hc.
Qed.

Lemma for_each_steps {S A : Type} (step : A -> S -> S -> Prop)
    (body : A -> M S unit) :
  (forall x s, exists s', body x s = (Ret tt, s') /\ step x s s') ->
  forall l s, exists s', for_each l body s = (Ret tt, s') /\ steps step l s s'.
Proof.
  intros Hbody. induction l as [|x l IH]; intros s; simpl.
  - exists s. split; [reflexivity | constructor].
  - destruct (Hbody x s) as (s1 & E1 & H1).
    destruct (IH s1) as (s2 & E2 & H2).
    exists s2. unfold bind. rewrite E1. split; [exact E2|].
    econstructor; eassumption.
Qed.

Lemma search_run (query_url : string) (n : Z) w :
  search query_url n w
  = (match market w query_url n with
     | inl e => Raise e
     | inr vinted_items => Ret vinted_items
     end, searched query_url n w).
Proof.
  unfold search, bind, note, modify, get, searched. cbn.
  destruct (market w query_url n); reflexivity.
Qed.

Lemma searched_ready (query_url : string) (n : Z) w :
  store_ready (searched query_url n w) = store_ready w.
Proof. reflexivity. Qed.

Local Abbreviation sync := (sync_query float_of_str fmul_tenth round2).

(** [sync_query] when the search raises. *)
Lemma sync_query_fetch_failed (self : VintedAdapter) (query_url : string)
    (q n : Z) w (e : string) :
  enabled self = true ->
  market w query_url n = inl e ->
  sync self query_url q n w
  = (Ret (mark_failed e initial_result),
     logged (error_row q e) (searched query_url n w)).
Proof.
  intros He Hm.
  unfold sync_query, with_local, sync_query_body, try_except, bind, in_world,
    update_local, ret.
  rewrite He. cbn [negb fst snd].
  rewrite search_run, Hm. cbn [fst snd].
  rewrite log_vinted_event_run. reflexivity.
Qed.

(** [sync_query] when the search answers with a list. *)
Lemma sync_query_fetch_ok (self : VintedAdapter) (query_url : string)
    (q n : Z) w (vinted_items : list VintedItem) :
  enabled self = true ->
  market w query_url n = inr vinted_items ->
  let w0 := searched query_url n w in
  exists r w',
    steps (item_rel (banwords_in w0) q) vinted_items
      (initial_result, after_call (CallGetSetting "banwords") w0) (r, w')
    /\ sync self query_url q n w
       = (Ret r,
          logged (summary_row q r) (stored "vinted_last_sync" (pretty (clock w')) w')).
Proof.
  intros He Hm w0.
  destruct (for_each_steps (item_rel (banwords_in w0) q)
              (item_body (banwords_in w0) q)
              (sync_item_step (banwords_in w0) q)
              vinted_items
              (initial_result, after_call (CallGetSetting "banwords") w0))
    as ([r w'] & E & Hs).
  exists r, w'. split; [exact Hs|].
  unfold sync_query, with_local, sync_query_body, try_except, bind, in_world,
    update_local, get_local, get, ret.
  rewrite He. cbn [negb fst snd].
  rewrite search_run, Hm. cbn [fst snd].
  rewrite get_setting_run. cbn [fst snd].
  fold w0. change (parse_banwords _) with (banwords_in w0).
  rewrite E. cbn [fst snd].
  rewrite set_setting_run. cbn [fst snd].
  rewrite log_vinted_event_run. reflexivity.
Qed.

(** *** Counting *)

Lemma item_step_counts (bw : list string) (q : Z) (it : VintedItem) f f' :
  item_rel bw q it f f' ->
  tally (fst f') = S (tally (fst f))
  /\ success (fst f') = success (fst f)
  /\ message (fst f') = message (fst f)
  /\ (forall l, items (fst f) = Some l -> length l = imported (fst f) ->
      exists l', items (fst f') = Some l' /\ length l' = imported (fst f')).
Proof.
  unfold tally.
  destruct 1; cbn; repeat split; try lia; intros l Hl Hlen; eauto.
  rewrite Hl. eexists. split; [reflexivity|].
  rewrite length_app. cbn. lia.
Qed.

Lemma steps_counts (bw : list string) (q : Z) (l : list VintedItem) f f' :
  steps (item_rel bw q) l f f' ->
  tally (fst f') = tally (fst f) + length l
  /\ success (fst f') = success (fst f)
  /\ message (fst f') = message (fst f)
  /\ (forall rows, items (fst f) = Some rows -> length rows = imported (fst f) ->
      exists rows', items (fst f') = Some rows' /\ length rows' = imported (fst f')).
Proof.
  induction 1 as [f|it l f f1 f2 Hstep Hsteps IH].
  - repeat split; try (cbn; lia). eauto.
  - apply item_step_counts in Hstep as (Ht & Hs & Hm & Hi).
    destruct IH as (Ht' & Hs' & Hm' & Hi').
    repeat split; try congruence.
    + rewrite Ht', Ht. cbn. lia.
    + intros rows Hr Hlen. destruct (Hi rows Hr Hlen) as (rows1 & Hr1 & Hlen1).
      eauto.
Qed.

(** *** What the loop leaves alone *)

Lemma item_step_world (bw : list string) (q : Z) (it : VintedItem) f f' :
  item_rel bw q it f f' ->
  (exists cs, calls (snd f') = calls (snd f) ++ cs /\ forallb item_call cs = true)
  /\ clock (snd f') = clock (snd f)
  /\ market (snd f') = market (snd f)
  /\ settings (snd f') = settings (snd f)
  /\ (reliable (snd f) = true -> reliable (snd f') = true).
Proof.
  destruct 1; cbn [fst snd];
    rewrite ?logged_calls, ?created_calls, ?after_call_calls,
      ?logged_clock, ?created_clock, ?after_call_clock,
      ?logged_market, ?created_market, ?after_call_market,
      ?logged_settings, ?created_settings, ?after_call_settings;
    repeat split;
    auto using reliable_logged, reliable_created, reliable_after_call.
  - exists []. now rewrite app_nil_r.
  - eexists. split; reflexivity.
  - eexists. split; reflexivity.
  - exists [CallGetItemByVintedId (vid it); CallCreateItem d].
    rewrite <- !app_assoc. split; reflexivity.
  - exists [CallGetItemByVintedId (vid it); CallCreateItem d;
            CallLogEvent (import_log_row it d)].
    rewrite <- !app_assoc. split; reflexivity.
Qed.

Lemma steps_world (bw : list string) (q : Z) (l : list VintedItem) f f' :
  steps (item_rel bw q) l f f' ->
  (exists cs, calls (snd f') = calls (snd f) ++ cs /\ forallb item_call cs = true)
  /\ clock (snd f') = clock (snd f)
  /\ market (snd f') = market (snd f)
  /\ settings (snd f') = settings (snd f)
  /\ (reliable (snd f) = true -> reliable (snd f') = true).
Proof.
  induction 1 as [f|it l f f1 f2 Hstep Hsteps IH].
  - repeat split; auto. exists []. now rewrite app_nil_r.
  - apply item_step_world in Hstep as ((cs1 & Hc1 & Hf1) & Hk1 & Hm1 & Hs1 & Hr1).
    destruct IH as ((cs2 & Hc2 & Hf2) & Hk2 & Hm2 & Hs2 & Hr2).
    repeat split; try congruence; auto.
    exists (cs1 ++ cs2). rewrite Hc2, Hc1, <- app_assoc. split; [reflexivity|].
    rewrite forallb_app, Hf1, Hf2. reflexivity.
Qed.

(** *** A first run settles every item *)





(** *** A run over settled items imports nothing *)



End SyncFacts.

(** C9.  When the integration is enabled and the search answers with [n]
    items, [sync_query] returns a result whose three counters add up to
    [n] and whose item list is as long as [imported] says. *)
Theorem sync_query_counts_every_item {float : Type}
    (float_of_str : string -> option float) (fmul_tenth round2 : float -> float)
    (self : VintedAdapter) (query_url : string) (q n : Z)
    (w : World (float := float)) (vinted_items : list VintedItem) :
  enabled self = true ->
  market w query_url n = inr vinted_items ->
  exists r w' rows,
    sync_query float_of_str fmul_tenth round2 self query_url q n w = (Ret r, w')
    /\ imported r + skipped r + errors r = length vinted_items
    /\ items r = Some rows
    /\ length rows = imported r.
Proof.
  intros He Hm.
  destruct (sync_query_fetch_ok float_of_str fmul_tenth round2
              self query_url q n w vinted_items He Hm) as (r & w' & Hs & E).
  apply steps_counts in Hs as (Ht & _ & _ & Hi). cbn [fst] in *.
  destruct (Hi [] eq_refl eq_refl) as (rows & Hr & Hlen).
  eexists r, _, rows. split; [exact E|]. unfold tally in Ht. cbn in Ht. auto.
Qed.

(** C5, as amended.  When the integration is enabled and the search answers
    with a list, [sync_query] ends, whatever happened to the items, with a
    [set_setting] of the last-sync key to the current time followed by one
    [query_sync] summary event carrying the counts of the result; between
    the read of the ban-words and these two calls only look-ups, insertions
    and [item_imported] events are issued.  On a store whose requests all
    go through, the setting then holds the time and the summary is the last
    row of the log. *)
Theorem sync_query_stamps_and_summarises {float : Type}
    (float_of_str : string -> option float) (fmul_tenth round2 : float -> float)
    (self : VintedAdapter) (query_url : string) (q n : Z)
    (w : World (float := float)) (vinted_items : list VintedItem) :
  enabled self = true ->
  market w query_url n = inr vinted_items ->
  exists r w' mid,
    sync_query float_of_str fmul_tenth round2 self query_url q n w = (Ret r, w')
    /\ success r = true
    /\ calls w'
       = calls w ++ [CallSearch query_url n; CallGetSetting "banwords"] ++ mid
           ++ [CallSetSetting "vinted_last_sync" (pretty (clock w));
               CallLogEvent (summary_row q r)]
    /\ forallb item_call mid = true
    /\ (reliable w = true ->
        settings w' !! "vinted_last_sync" = Some (pretty (clock w))
        /\ last (logs_table w') = Some (summary_row q r)).
Proof.
  intros He Hm.
  destruct (sync_query_fetch_ok float_of_str fmul_tenth round2
              self query_url q n w vinted_items He Hm) as (r & w1 & Hs & E).
  pose proof (steps_counts _ _ _ _ _ _ _ _ Hs) as (_ & Hsucc & _).
  apply steps_world in Hs as ((mid & Hc & Hf) & Hk & _ & _ & Hr).
  cbn [fst snd] in *.
  rewrite after_call_clock in Hk. rewrite after_call_calls in Hc.
  change (clock (searched query_url n w)) with (clock w) in Hk.
  change (calls (searched query_url n w))
    with (calls w ++ [CallSearch query_url n]) in Hc.
  rewrite Hk in E.
  eexists r, _, mid. split; [exact E|]. repeat split.
  - exact Hsucc.
  - rewrite logged_calls, stored_calls, Hc, <- !app_assoc. reflexivity.
  - exact Hf.
  - rewrite logged_settings, stored_settings.
    rewrite reliable_ready by (apply Hr, reliable_after_call; assumption).
    apply lookup_insert_eq.
  - rewrite logged_logs.
    rewrite reliable_ready
      by (apply reliable_stored, Hr, reliable_after_call; assumption).
    apply last_snoc.
Qed.

(** C6.  When the integration is enabled and the search raises,
    [sync_query] returns an unsuccessful result that carries the text of
    the error, with no item counted and an empty item list; besides the
    search it makes one call, which submits the [query_sync] error event;
    the inventory and the settings stay as they were, and the event is the
    one row added to the log (when the store takes it). *)
Theorem sync_query_fetch_error {float : Type}
    (float_of_str : string -> option float) (fmul_tenth round2 : float -> float)
    (self : VintedAdapter) (query_url : string) (q n : Z)
    (w : World (float := float)) (e : string) :
  enabled self = true ->
  market w query_url n = inl e ->
  exists w',
    sync_query float_of_str fmul_tenth round2 self query_url q n w
    = (Ret {| success := false; imported := 0; skipped := 0; errors := 0;
              items := Some []; message := Some e |}, w')
    /\ calls w' = calls w ++ [CallSearch query_url n; CallLogEvent (error_row q e)]
    /\ items_table w' = items_table w
    /\ settings w' = settings w
    /\ logs_table w'
       = if store_ready w then logs_table w ++ [error_row q e] else logs_table w.
Proof.
  intros He Hm.
  rewrite (sync_query_fetch_failed float_of_str fmul_tenth round2
             self query_url q n w e He Hm).
  eexists. split; [reflexivity|].
  rewrite logged_calls, logged_items, logged_settings, logged_logs.
  repeat split. unfold searched. cbn. now rewrite <- app_assoc.
Qed.

(** C7.  While the integration is disabled, [sync_query] returns the
    unsuccessful result with three zero counters and the message
    ["Integration disabled"], and leaves the world as it is: neither the
    marketplace nor the database layer is called. *)
Theorem sync_query_disabled {float : Type}
    (float_of_str : string -> option float) (fmul_tenth round2 : float -> float)
    (self : VintedAdapter) (query_url : string) (q n : Z)
    (w : World (float := float)) :
  enabled self = false ->
  exists r,
    sync_query float_of_str fmul_tenth round2 self query_url q n w = (Ret r, w)
    /\ success r = false
    /\ imported r = 0 /\ skipped r = 0 /\ errors r = 0
    /\ message r = Some "Integration disabled"
    /\ calls (snd (sync_query float_of_str fmul_tenth round2 self query_url q n w))
       = calls w.
Proof.
  intros He. unfold sync_query. rewrite He. cbn.
  exists disabled_result. repeat split.
Qed.

(** C10.  [enable_integration] and [disable_integration] return [True] and
    set the flag of the adapter in every world; [set_setting] never raises
    and answers [False] when its request does not go through, in which
    case the settings are as before although [True] was reported. *)
Theorem enable_disable_always_succeed {float : Type}
    (self : VintedAdapter) (w : World (float := float)) :
  (exists w',
     enable_integration (self, w) = (Ret true, ({| enabled := true |}, w'))
     /\ settings w'
        = if store_ready w
          then <["vinted_integration_enabled" := "true"]> (settings w)
          else settings w)
  /\ (exists w',
        disable_integration (self, w) = (Ret true, ({| enabled := false |}, w'))
        /\ settings w'
           = if store_ready w
             then <["vinted_integration_enabled" := "false"]> (settings w)
             else settings w)
  /\ (forall k v, fst (set_setting k v w) = Ret (store_ready w)).
Proof.
  repeat split.
  - unfold enable_integration, try_except, bind, in_world, update_local, ret.
    cbn [fst snd]. rewrite set_setting_run. cbn [fst snd].
    rewrite log_vinted_event_run. cbn [fst snd].
    eexists. split; [reflexivity|].
    now rewrite logged_settings, stored_settings.
  - unfold disable_integration, try_except, bind, in_world, update_local, ret.
    cbn [fst snd]. rewrite set_setting_run. cbn [fst snd].
    rewrite log_vinted_event_run. cbn [fst snd].
    eexists. split; [reflexivity|].
    now rewrite logged_settings, stored_settings.
  - intros k v. now rewrite set_setting_run.
Qed.


(** ** The properties at work on the concrete instance *)




Lemma sync_query_stamps_and_summarises_witness :
  exists r w' mid,
    Demo.sync Demo.on (Demo.world [] (inr Demo.listing)) = (Ret r, w')
    /\ success r = true
    /\ calls w'
       = [CallSearch Demo.search_url 20; CallGetSetting "banwords"] ++ mid
           ++ [CallSetSetting "vinted_last_sync" "1700000000";
               CallLogEvent (summary_row 7 r)]
    /\ forallb item_call mid = true
    /\ settings w' !! "vinted_last_sync" = Some "1700000000"
    /\ last (logs_table w') = Some (summary_row 7 r).
Proof.
  destruct (sync_query_stamps_and_summarises
              Demo.float_of_str Demo.fmul_tenth Demo.round2
              Demo.on Demo.search_url 7 20
              (Demo.world [] (inr Demo.listing)) Demo.listing eq_refl eq_refl)
    as (r & w' & mid & E & Hs & Hc & Hf & Hp).
  destruct (Hp eq_refl) as [Hp1 Hp2].
  exists r, w', mid. repeat split; assumption.
Defined.

(** C5 as stated fails when the search raises: the store takes every
    request, yet the last-sync setting is not written and the one event
    logged is the error event, which carries no counts. *)
Lemma sync_query_fetch_failure_leaves_no_stamp :
  let w' := snd (Demo.sync Demo.on (Demo.world [] (inl "HTTP 403"))) in
  settings w' !! "vinted_last_sync" = None
  /\ logs_table w' = [error_row 7 "HTTP 403"]
  /\ calls w' = [CallSearch Demo.search_url 20;
                 CallLogEvent (error_row 7 "HTTP 403")].
Proof. vm_compute. repeat split. Qed.

Lemma sync_query_fetch_error_witness :
  exists w',
    Demo.sync Demo.on (Demo.world [] (inl "HTTP 403"))
    = (Ret {| success := false; imported := 0; skipped := 0; errors := 0;
              items := Some []; message := Some "HTTP 403" |}, w')
    /\ calls w' = [] ++ [CallSearch Demo.search_url 20;
                         CallLogEvent (error_row 7 "HTTP 403")]
    /\ items_table w' = []
    /\ settings w' = {[ "banwords" := "fake" ]}
    /\ logs_table w' = [] ++ [error_row 7 "HTTP 403"].
Proof.
  exact (sync_query_fetch_error
           Demo.float_of_str Demo.fmul_tenth Demo.round2
           Demo.on Demo.search_url 7 20
           (Demo.world [] (inl "HTTP 403")) "HTTP 403" eq_refl eq_refl).
Defined.

Lemma sync_query_disabled_witness :
  exists r,
    Demo.sync Demo.off (Demo.world [Some "down"] (inr Demo.listing))
    = (Ret r, Demo.world [Some "down"] (inr Demo.listing))
    /\ success r = false
    /\ imported r = 0 /\ skipped r = 0 /\ errors r = 0
    /\ message r = Some "Integration disabled"
    /\ calls (snd (Demo.sync Demo.off (Demo.world [Some "down"] (inr Demo.listing))))
       = [].
Proof.
  exact (sync_query_disabled
           Demo.float_of_str Demo.fmul_tenth Demo.round2
           Demo.off Demo.search_url 7 20
           (Demo.world [Some "down"] (inr Demo.listing)) eq_refl).
Defined.

Lemma sync_query_counts_every_item_witness :
  exists r w' rows,
    Demo.sync Demo.on (Demo.world [None; Some "timeout"] (inr Demo.listing))
    = (Ret r, w')
    /\ imported r + skipped r + errors r = 2
    /\ items r = Some rows
    /\ length rows = imported r.
Proof.
  exact (sync_query_counts_every_item
           Demo.float_of_str Demo.fmul_tenth Demo.round2
           Demo.on Demo.search_url 7 20
           (Demo.world [None; Some "timeout"] (inr Demo.listing))
           Demo.listing eq_refl eq_refl).
Defined.

(** C1 as stated fails: with no access key in the environment
    [get_setting] does not raise, it returns [None]. *)
Lemma get_setting_swallows_missing_config :
  fst (get_setting "banwords" Demo.world_without_key) = Ret None
  /\ fst (get_setting "banwords" Demo.world_without_key) <> Raise config_missing.
Proof. split; [reflexivity | discriminate]. Qed.

(** The listing of two items, one of them banned, on a store that takes
    every request. *)
Example sync_listing :
  let run := Demo.sync Demo.on (Demo.world [] (inr Demo.listing)) in
  fst run
  = Ret {| success := true; imported := 1; skipped := 1; errors := 0;
           items := Some [Demo.row]; message := None |}
  /\ items_table (snd run) = [Demo.row]
  /\ settings (snd run) !! "vinted_last_sync" = Some "1700000000".
Proof. vm_compute. repeat split. Qed.

(** Enabling the integration while the store is down reports success and
    persists nothing. *)
Example enable_while_store_down :
  let run :=
    enable_integration
      (Demo.off, Demo.world [Some "down"; Some "down"] (inr [])) in
  fst run = Ret true
  /\ fst (snd run) = Demo.on
  /\ settings (snd (snd run)) !! "vinted_integration_enabled" = None
  /\ logs_table (snd (snd run)) = [].
Proof. vm_compute. repeat split. Qed.

Example sku_nike : VintedNormalizer.generate_sku "42" (Some "Nike") = "VINT-NIK-42".
Proof. reflexivity. Qed.

Example sku_spaced : VintedNormalizer.generate_sku "7" (Some "a b c") = "VINT-AB-7".
Proof. reflexivity. Qed.

Example sku_non_letters : VintedNormalizer.generate_sku "7" (Some "H&M") = "VINT-H&M-7".
Proof. reflexivity. Qed.

Example split_quad : PyStr.split "|||" "a||||b|||" = ["a"; "|b"; ""].
Proof. reflexivity. Qed.

Example strip_ex : PyStr.strip "  a b  " = "a b".
Proof. reflexivity. Qed.

(** * Further properties *)

(** ** More on strings *)

Section MoreStringFacts.

Import PyStr.

Lemma lower_char_not_upper (c : ascii) : is_upper (lower_char c) = false.
Proof. destruct c as [[] [] [] [] [] [] [] []]; reflexivity. Qed.

Lemma lower_char_space (c : ascii) : is_space (lower_char c) = is_space c.
Proof. destruct c as [[] [] [] [] [] [] [] []]; reflexivity. Qed.

Lemma upper_char_idem (c : ascii) : upper_char (upper_char c) = upper_char c.
Proof. destruct c as [[] [] [] [] [] [] [] []]; reflexivity. Qed.

Lemma smap_truthy (f : ascii -> ascii) (s : string) : truthy (smap f s) = truthy s.
Proof. destruct s; reflexivity. Qed.

Lemma none_upper_lower (s : string) : none_char is_upper (lower s) = true.
Proof.
  unfold lower. induction s as [|c s IH]; simpl; [reflexivity|].
  now rewrite lower_char_not_upper, IH.
Qed.

Lemma lstrip_lower (s : string) : lstrip (lower s) = lower (lstrip s).
Proof.
  unfold lower. induction s as [|c s IH]; simpl; [reflexivity|].
  rewrite lower_char_space. destruct (is_space c); [exact IH | reflexivity].
Qed.

Lemma rstrip_lower (s : string) : rstrip (lower s) = lower (rstrip s).
Proof.
  unfold lower. induction s as [|c s IH]; simpl; [reflexivity|].
  rewrite IH, smap_truthy, lower_char_space.
  destruct (is_space c && negb (truthy (rstrip s))); reflexivity.
Qed.

Lemma strip_lower (s : string) : strip (lower s) = lower (strip s).
Proof. unfold strip. now rewrite lstrip_lower, rstrip_lower. Qed.

(** The text is empty or starts with a character that is not white space. *)
Lemma lstrip_head (s : string) :
  match lstrip s with
  | EmptyString => True
  | String c _ => is_space c = false
  end.
Proof.
  induction s as [|c s IH]; simpl; [exact I|].
  destruct (is_space c) eqn:E; [exact IH | exact E].
Qed.

Lemma rstrip_idem (s : string) : rstrip (rstrip s) = rstrip s.
Proof.
  induction s as [|c s IH]; simpl; [reflexivity|].
  destruct (is_space c && negb (truthy (rstrip s))) eqn:E; [reflexivity|].
  simpl. now rewrite IH, E.
Qed.

Lemma strip_idem (s : string) : strip (strip s) = strip s.
Proof.
  unfold strip. pose proof (lstrip_head s) as H.
  destruct (lstrip s) as [|c t]; [reflexivity|].
  assert (E : rstrip (String c t) = String c (rstrip t))
    by (simpl; now rewrite H).
  rewrite E. change (lstrip (String c (rstrip t)))
    with (if is_space c then lstrip (rstrip t) else String c (rstrip t)).
  rewrite H, <- E. apply rstrip_idem.
Qed.

Lemma join_cons (sep x : string) (rest : list string) :
  rest <> [] -> join sep (x :: rest) = x +:+ sep +:+ join sep rest.
Proof. destruct rest; [congruence | reflexivity]. Qed.

Lemma str_drop_app (a t : string) : str_drop (String.length a) (a +:+ t) = t.
Proof. induction a as [|c a IH]; simpl; [now destruct t | exact IH]. Qed.

Lemma join_split_go (sep : string) (k : nat) (s : string) :
  sep <> "" -> join sep (split_go sep k s) = str_drop k s.
Proof.
  intros Hsep. revert k. induction s as [|c s IH]; intros k.
  - destruct k; reflexivity.
  - destruct k as [|k]; [|exact (IH k)].
    cbn [split_go str_drop].
    destruct (starts_with sep (String c s)) eqn:E.
    + destruct sep as [|a sep]; [congruence|].
      cbn [starts_with] in E. apply andb_true_iff in E as [Ea Es].
      apply Ascii.eqb_eq in Ea. subst a.
      apply starts_with_iff in Es as [t ->].
      rewrite join_cons by apply split_go_nonempty.
      rewrite IH.
      replace (String.length (String c sep) - 1) with (String.length sep)
        by (cbn [String.length]; lia).
      rewrite str_drop_app. reflexivity.
    + specialize (IH 0).
      assert (Hs : str_drop 0 s = s) by now destruct s.
      rewrite Hs in IH.
      destruct (split_go sep 0 s) as [|h t] eqn:E'.
      * now apply split_go_nonempty in E'.
      * destruct t as [|h' t]; cbn [join] in *; rewrite <- IH; reflexivity.
  Qed.

Lemma dash_suffix_inj (p1 p2 i1 i2 : string) :
  contains "-" i1 = false ->
  contains "-" i2 = false ->
  p1 +:+ "-" +:+ i1 = p2 +:+ "-" +:+ i2 ->
  i1 = i2.
Proof.
  intros H1 H2. revert p2.
  induction p1 as [|c p1 IH]; intros [|d p2] E; simpl in E.
  - now injection E.
  - injection E as _ E. exfalso.
    assert (contains "-" i1 = true); [|congruence].
    apply contains_iff. exists p2, i2. exact E.
  - injection E as _ E. exfalso.
    assert (contains "-" i2 = true); [|congruence].
    apply contains_iff. exists p1, i1. now symmetry.
  - injection E as _ E. now apply (IH p2).
Qed.

End MoreStringFacts.

(** ** More on the normalizer *)

Section MoreNormalizerFacts.

Import PyStr VintedNormalizer.

Lemma contains_empty (s : string) : contains "" s = true.
Proof. destruct s; reflexivity. Qed.

Lemma can_import_item_decision (it : VintedItem) (bw : list string) :
  fst (can_import_item it (Some bw))
  = negb (existsb (fun w => contains w (lower (title it))) (map lower bw)).
Proof.
  rewrite can_import_item_eq.
  induction bw as [|w bw IH]; cbn [first_banword map existsb]; [reflexivity|].
  destruct (contains (lower w) (lower (title it))); [reflexivity | exact IH].
Qed.

Lemma first_banword_app (tl : string) (bw more : list string) :
  first_banword tl (bw ++ more)
  = match first_banword tl bw with
    | Some w => Some w
    | None => first_banword tl more
    end.
Proof.
  induction bw as [|w bw IH]; cbn [app first_banword]; [reflexivity|].
  destruct (contains (lower w) tl); [reflexivity | exact IH].
Qed.

Lemma parse_banwords_forall (P : string -> Prop) (l : list string) :
  (forall w, truthy (strip w) = true -> P (lower (strip w))) ->
  Forall P (map (fun w => lower (strip w))
              (filter (fun w => truthy (strip w) = true) l)).
Proof.
  intros H. induction l as [|w l IH]; [constructor|].
  rewrite filter_cons. case_decide; [|exact IH].
  cbn [map]. constructor; auto.
Qed.

End MoreNormalizerFacts.

(** X1.  The SKU determines the external id: two SKUs made from external
    ids that hold no dash are equal only if the ids are equal, whatever the
    brands are. *)
Theorem generate_sku_determines_id (i1 i2 : string) (b1 b2 : option string) :
  PyStr.contains "-" i1 = false ->
  PyStr.contains "-" i2 = false ->
  VintedNormalizer.generate_sku i1 b1 = VintedNormalizer.generate_sku i2 b2 ->
  i1 = i2.
Proof.
  intros H1 H2 E. unfold VintedNormalizer.generate_sku in E.
  exact (dash_suffix_inj _ _ _ _ H1 H2 E).
Qed.

Lemma generate_sku_determines_id_witness :
  VintedNormalizer.generate_sku "42" (Some "Nike")
  = VintedNormalizer.generate_sku "42" (Some "nikon")
  /\ "42" = "42".
Proof.
  split; [reflexivity|].
  exact (generate_sku_determines_id "42" "42" (Some "Nike") (Some "nikon")
           eq_refl eq_refl eq_refl).
Defined.

(** X2.  The decision of [can_import_item] depends on the title and on the
    ban-words only through their lower-case forms. *)
Theorem can_import_item_ignores_case (it1 it2 : VintedItem) (bw1 bw2 : list string) :
  PyStr.lower (title it1) = PyStr.lower (title it2) ->
  map PyStr.lower bw1 = map PyStr.lower bw2 ->
  fst (VintedNormalizer.can_import_item it1 (Some bw1))
  = fst (VintedNormalizer.can_import_item it2 (Some bw2)).
Proof.
  intros Ht Hb. rewrite !can_import_item_decision, Ht, Hb. reflexivity.
Qed.

Lemma can_import_item_ignores_case_witness :
  fst (VintedNormalizer.can_import_item
         (Demo.item "1" "FAKE nike" "20" None) (Some ["Fake"]))
  = fst (VintedNormalizer.can_import_item
           (Demo.item "2" "fake NIKE" "30" None) (Some ["fAKE"])).
Proof.
  exact (can_import_item_ignores_case
           (Demo.item "1" "FAKE nike" "20" None)
           (Demo.item "2" "fake NIKE" "30" None) ["Fake"] ["fAKE"]
           eq_refl eq_refl).
Defined.

(** X3.  Ban lists compose, the first match winning: with a list followed
    by more words, an item the list refuses is refused with the same
    reason, and an item the list accepts is judged by the words added. *)
Theorem can_import_item_app (it : VintedItem) (bw more : list string) :
  VintedNormalizer.can_import_item it (Some (bw ++ more))
  = if fst (VintedNormalizer.can_import_item it (Some bw))
    then VintedNormalizer.can_import_item it (Some more)
    else VintedNormalizer.can_import_item it (Some bw).
Proof.
  rewrite !can_import_item_eq, first_banword_app.
  destruct (VintedNormalizer.first_banword (PyStr.lower (title it)) bw);
    reflexivity.
Qed.

(** X4.  A ban list that holds the empty word refuses every item. *)
Theorem can_import_item_empty_banword (it : VintedItem) (bw : list string) :
  In "" bw ->
  fst (VintedNormalizer.can_import_item it (Some bw)) = false.
Proof.
  intros Hin. rewrite can_import_item_decision.
  apply negb_false_iff, existsb_exists.
  exists "". split; [|apply contains_empty].
  change "" with (PyStr.lower ""). now apply in_map.
Qed.

Lemma can_import_item_empty_banword_witness :
  fst (VintedNormalizer.can_import_item
         (Demo.item "2" "Nike Shoes" "20" None) (Some ["zara"; ""])) = false.
Proof.
  apply (can_import_item_empty_banword
           (Demo.item "2" "Nike Shoes" "20" None) ["zara"; ""]).
  right. left. reflexivity.
Defined.

(** X5.  Every ban-word [sync_query] derives from the setting is not
    empty, holds no upper-case letter, and has no white space at either
    end. *)
Theorem parse_banwords_wellformed (v : string) :
  Forall (fun b => b <> ""
                   /\ none_char PyStr.is_upper b = true
                   /\ PyStr.strip b = b)
    (parse_banwords v).
Proof.
  unfold parse_banwords. apply parse_banwords_forall. intros w Hw.
  repeat split.
  - intros E. unfold PyStr.lower in E.
    rewrite <- (smap_truthy PyStr.lower_char) in Hw. rewrite E in Hw. discriminate.
  - apply none_upper_lower.
  - now rewrite strip_lower, strip_idem.
Qed.

(** X6.  Splitting loses nothing: joining the segments of a text with the
    separator gives the text back, for every separator that is not
    empty. *)
Theorem split_join_roundtrip (sep s : string) :
  sep <> "" -> PyStr.join sep (PyStr.split sep s) = s.
Proof.
  intros Hsep. unfold PyStr.split. rewrite join_split_go by exact Hsep.
  now destruct s.
Qed.

Lemma split_join_roundtrip_witness :
  PyStr.join "|||" (PyStr.split "|||" "fake||||copy||| |||") = "fake||||copy||| |||".
Proof.
  apply (split_join_roundtrip "|||" "fake||||copy||| |||"). discriminate.
Defined.

(** X7.  [normalize_user_country] keeps the profile id and gives a country
    code that is never empty and holds no lower-case letter; normalizing
    its own result again changes nothing. *)
Theorem normalize_user_country_upper (pid : string) (code : option string) :
  let r := normalize_user_country pid code in
  profile_id r = pid
  /\ country_code r <> ""
  /\ none_char PyStr.is_lower (country_code r) = true
  /\ normalize_user_country pid (Some (country_code r)) = r.
Proof.
  assert (Hidem : forall s, PyStr.upper (PyStr.upper s) = PyStr.upper s).
  { unfold PyStr.upper. induction s as [|d s IH]; cbn; [reflexivity|].
    now rewrite upper_char_idem, IH. }
  unfold normalize_user_country. cbn [profile_id country_code].
  destruct (opt_truthy code) eqn:E.
  - assert (Ht : PyStr.truthy (PyStr.upper (default "" code)) = true).
    { unfold PyStr.upper. rewrite smap_truthy.
      destruct code as [x|]; [exact E | discriminate]. }
    repeat split.
    + intros E'. rewrite E' in Ht. discriminate.
    + apply none_lower_upper.
    + rewrite <- (Hidem (default "" code)) at 3.
      set (x := PyStr.upper (default "" code)) in *.
      change (opt_truthy (Some x)) with (PyStr.truthy x).
      change (default "" (Some x)) with x.
      now rewrite Ht.
  - repeat split. discriminate.
Qed.

(** ** More on the database layer *)

Section MoreDatabaseFacts.

Context {float : Type}.
Variable number : Type.
Variable zero : number.
Variable add_float : number -> float -> number.
Variable round_number : number -> number.
Variable profit_float : ItemData (float := float) -> float.

Implicit Types w : World (float := float).

Local Abbreviation items_stats :=
  (get_items_stats number zero add_float round_number profit_float).

Ltac cases_on w :=
  destruct w as [url key [cl|] st tb lg [|[err|] fs] mk ck cs];
  try (destruct url as [[|? ?]|]); try (destruct key as [[|? ?]|]).

Lemma get_all_settings_run w :
  exists w',
    get_all_settings w = (Ret (if store_ready w then settings w else ∅), w')
    /\ unchanged_but_for_the_connection w w'.
Proof.
  unfold unchanged_but_for_the_connection.
  cases_on w; eexists; (split; [reflexivity|]); cbn; repeat split; auto;
    discriminate.
Qed.

Lemma get_items_stats_run w :
  exists w',
    items_stats w
    = (Ret (if store_ready w
            then {| total_items := length (items_table w);
                    listed := count_status "Listed" (items_table w);
                    sold := count_status "Sold" (items_table w);
                    draft := count_status "Draft" (items_table w);
                    total_profit :=
                      round_number
                        (fold_left add_float
                           (map profit_float
                              (filter (fun item => listing_status item = "Sold")
                                 (items_table w)))
                           zero) |}
            else {| total_items := 0; listed := 0; sold := 0; draft := 0;
                    total_profit := zero |}), w')
    /\ unchanged_but_for_the_connection w w'.
Proof.
  unfold unchanged_but_for_the_connection.
  cases_on w; eexists; (split; [reflexivity|]); cbn; repeat split; auto;
    discriminate.
Qed.

Lemma count_status_cons (s : string) (x : ItemData (float := float))
    (l : list ItemData) :
  count_status s (x :: l)
  = (if decide (listing_status x = s) then 1 else 0) + count_status s l.
Proof.
  unfold count_status. rewrite filter_cons. case_decide; reflexivity.
Qed.

Lemma count_status_app (s : string) (l l' : list (ItemData (float := float))) :
  count_status s (l ++ l') = count_status s l + count_status s l'.
Proof.
  unfold count_status. now rewrite filter_app, length_app.
Qed.

Lemma count_three_statuses (l : list (ItemData (float := float))) :
  count_status "Listed" l + count_status "Sold" l + count_status "Draft" l
  <= length l.
Proof.
  induction l as [|x l IH]; [cbn; lia|].
  rewrite !count_status_cons. cbn [length].
  repeat case_decide; try lia; congruence.
Qed.

Lemma count_status_all (s : string) (l : list (ItemData (float := float))) :
  Forall (fun x => listing_status x = s) l -> count_status s l = length l.
Proof.
  induction 1 as [|x l Hx Hl IH]; [reflexivity|].
  rewrite count_status_cons, IH. case_decide; [reflexivity | contradiction].
Qed.

Lemma count_status_none (s : string) (l : list (ItemData (float := float))) :
  Forall (fun x => listing_status x <> s) l -> count_status s l = 0.
Proof.
  induction 1 as [|x l Hx Hl IH]; [reflexivity|].
  rewrite count_status_cons, IH. case_decide; [contradiction | reflexivity].
Qed.

End MoreDatabaseFacts.

(** X8.  A request the store does not take is swallowed: each operation
    returns its sentinel ([None], [False], the empty dictionary) and the
    three tables stay as they were, so [get_setting] answers [None] both
    for a key that is not set and for a request that failed. *)
Theorem failed_request_gives_sentinels {float : Type} (w : World (float := float))
    (k v : string) (d : ItemData) (ev stat msg : string) (pl : option LogPayload) :
  store_ready w = false ->
  fst (get_setting k w) = Ret None
  /\ fst (set_setting k v w) = Ret false
  /\ fst (get_item_by_vinted_id k w) = Ret None
  /\ fst (create_item d w) = Ret None
  /\ fst (log_vinted_event ev stat msg pl w) = Ret false
  /\ fst (get_all_settings w) = Ret ∅
  /\ Forall (fun w' => settings w' = settings w
                       /\ items_table w' = items_table w
                       /\ logs_table w' = logs_table w)
       [snd (get_setting k w); snd (set_setting k v w);
        snd (get_item_by_vinted_id k w); snd (create_item d w);
        snd (log_vinted_event ev stat msg pl w); snd (get_all_settings w)].
Proof.
  intros Hr.
  destruct (get_all_settings_run w) as (wa & Ea & Hs & Hi & Hl & _).
  rewrite get_setting_run, set_setting_run, get_item_by_vinted_id_run,
    create_item_run, log_vinted_event_run, Ea.
  unfold lookup_answer, stored, created, logged. cbn [fst snd]. rewrite Hr.
  repeat split.
  repeat constructor;
    rewrite ?after_call_settings, ?after_call_items, ?after_call_logs; auto.
Qed.

Lemma failed_request_gives_sentinels_witness :
  fst (get_setting "banwords" (Demo.world [Some "timeout"] (inr [])))
  = Ret None
  /\ settings (Demo.world [Some "timeout"] (inr [])) !! "banwords" = Some "fake".
Proof.
  split; [|reflexivity].
  exact (proj1 (failed_request_gives_sentinels
                  (Demo.world [Some "timeout"] (inr []))
                  "banwords" "" Demo.row "" "" "" None eq_refl)).
Defined.





(** X11.  [get_items_stats] never raises and changes no table; the three
    status counts it reports never add up to more than the total, which is
    the size of the inventory, or zero when the request failed. *)
Theorem get_items_stats_counts {float number : Type} (zero : number)
    (add_float : number -> float -> number) (round_number : number -> number)
    (profit_float : ItemData (float := float) -> float)
    (w : World (float := float)) :
  exists st w',
    get_items_stats number zero add_float round_number profit_float w
    = (Ret st, w')
    /\ listed st + sold st + draft st <= total_items st
    /\ total_items st = (if store_ready w then length (items_table w) else 0)
    /\ settings w' = settings w
    /\ items_table w' = items_table w
    /\ logs_table w' = logs_table w.
Proof.
  destruct (get_items_stats_run number zero add_float round_number profit_float w)
    as (w' & E & Hs & Hi & Hl & _).
  eexists _, w'. split; [exact E|].
  destruct (store_ready w); cbn; repeat split; auto.
  apply count_three_statuses.
Qed.

(** ** More on the sync loop *)


Section MoreSyncFacts.

Context {float : Type}.
Variable float_of_str : string -> option float.
Variable fmul_tenth : float -> float.
Variable round2 : float -> float.

Implicit Types w : World (float := float).
Implicit Types r : SyncResult (float := float).
Implicit Types f : Frame (float := float).

Local Abbreviation normalize := (normalize_item float_of_str fmul_tenth round2).
Local Abbreviation item_rel := (item_step float_of_str fmul_tenth round2).
Local Abbreviation sync := (sync_query float_of_str fmul_tenth round2).

(** The row comes from an item of [l] that holds no ban-word. *)
Local Abbreviation from_listing bw q l :=
  (fun row : ItemData =>
     exists it, In it l
                /\ fst (VintedNormalizer.can_import_item it (Some bw)) = true
                /\ normalize it q = Some row).

Lemma item_step_inventory (bw : list string) (q : Z) (it : VintedItem) f f' :
  item_rel bw q it f f' ->
  forall base rows,
    items (fst f) = Some rows ->
    items_table (snd f) = base ++ rows ->
    exists new,
      items (fst f') = Some (rows ++ new)
      /\ items_table (snd f') = base ++ rows ++ new
      /\ Forall (from_listing bw q [it]) new.
Proof.
  destruct 1 as [r w Hb|r w row Hb Hl|r w Hb Hl Hn|r w d Hb Hl Hn Hr|r w d Hb Hl Hn Hr];
    cbn [fst snd]; intros base rows Hrows Htb.
  - exists []. rewrite app_nil_r. cbn. auto.
  - exists []. rewrite app_nil_r, after_call_items. cbn. auto.
  - exists []. rewrite app_nil_r, after_call_items. cbn. auto.
  - exists []. rewrite app_nil_r, created_items, Hr, after_call_items. cbn. auto.
  - exists [d]. rewrite logged_items, created_items, Hr, after_call_items.
    cbn. rewrite Hrows, Htb, <- app_assoc. repeat split.
    constructor; [|constructor]. exists it. cbn. auto.
Qed.

Lemma steps_inventory (bw : list string) (q : Z) (l : list VintedItem) f f' :
  steps (item_rel bw q) l f f' ->
  forall base rows,
    items (fst f) = Some rows ->
    items_table (snd f) = base ++ rows ->
    exists new,
      items (fst f') = Some (rows ++ new)
      /\ items_table (snd f') = base ++ rows ++ new
      /\ Forall (from_listing bw q l) new.
Proof.
  induction 1 as [f|it l f f1 f2 Hstep Hsteps IH]; intros base rows Hrows Htb.
  - exists []. rewrite app_nil_r. auto.
  - destruct (item_step_inventory _ _ _ _ _ Hstep base rows Hrows Htb)
      as (new1 & Hr1 & Ht1 & Hf1).
    destruct (IH base (rows ++ new1) Hr1 Ht1) as (new2 & Hr2 & Ht2 & Hf2).
    exists (new1 ++ new2). rewrite Hr2, Ht2, <- !app_assoc. repeat split.
    apply Forall_app. split.
    + eapply List.Forall_impl; [|exact Hf1]. cbv beta.
      intros row (x & [Hin|[]] & Hx). exists x. split; [now left | exact Hx].
    + eapply List.Forall_impl; [|exact Hf2]. cbv beta.
      intros row (x & Hin & Hx). exists x. split; [now right | exact Hx].
Qed.




Lemma normalize_fields (it : VintedItem) (q : Z) (d : ItemData) :
  normalize it q = Some d ->
  listing_status d = "Draft"
  /\ vinted_item_id d = vid it
  /\ vinted_query_id d = q
  /\ sku d = VintedNormalizer.generate_sku (vid it) (brand_title it).
Proof.
  unfold normalize_item. destruct (float_of_str (price it)); [|discriminate].
  intros [= <-]. repeat split.
Qed.

(** The three ways [sync_query] can go. *)
Lemma sync_query_cases (self : VintedAdapter) (query_url : string) (q n : Z) w :
  (enabled self = false
   /\ sync self query_url q n w = (Ret disabled_result, w))
  \/ (enabled self = true
      /\ exists e,
           market w query_url n = inl e
           /\ sync self query_url q n w
              = (Ret (mark_failed e initial_result),
                 logged (error_row q e) (searched query_url n w)))
  \/ (enabled self = true
      /\ exists l r wb,
           market w query_url n = inr l
           /\ steps (item_rel (banwords_in w) q) l
                (initial_result,
                 after_call (CallGetSetting "banwords") (searched query_url n w))
                (r, wb)
           /\ sync self query_url q n w
              = (Ret r,
                 logged (summary_row q r)
                   (stored "vinted_last_sync" (pretty (clock wb)) wb))).
Proof.
  destruct (enabled self) eqn:He.
  - right. destruct (market w query_url n) as [e|l] eqn:Hm.
    + left. split; [reflexivity|]. exists e. split; [reflexivity|].
      now apply sync_query_fetch_failed.
    + right. split; [reflexivity|].
      destruct (sync_query_fetch_ok float_of_str fmul_tenth round2
                  self query_url q n w l He Hm) as (r & wb & Hs & E).
      exists l, r, wb. auto.
  - left. split; [reflexivity|]. unfold sync_query. now rewrite He.
Qed.

End MoreSyncFacts.

(** X12.  [sync_query] never lets an exception out: whatever the
    marketplace and the store do it returns a result, whose [success] flag
    is set exactly when the integration is enabled and the search
    answered, even if every item then failed. *)
Theorem sync_query_never_raises {float : Type}
    (float_of_str : string -> option float) (fmul_tenth round2 : float -> float)
    (self : VintedAdapter) (query_url : string) (q n : Z)
    (w : World (float := float)) :
  exists r w',
    sync_query float_of_str fmul_tenth round2 self query_url q n w = (Ret r, w')
    /\ (success r = true
        <-> enabled self = true /\ exists l, market w query_url n = inr l).
Proof.
  destruct (sync_query_cases float_of_str fmul_tenth round2 self query_url q n w)
    as [[He E]|[[He (e & Hm & E)]|[He (l & r & wb & Hm & Hs & E)]]];
    rewrite E; eexists _, _; (split; [reflexivity|]).
  - cbn. rewrite He. split; [discriminate | intros [? _]; discriminate].
  - cbn. rewrite Hm. split; [discriminate | intros [_ [l ?]]; discriminate].
  - apply steps_counts in Hs as (_ & Hsucc & _). cbn in Hsucc.
    rewrite Hsucc. split; eauto.
Qed.

(** X13.  The rows [sync_query] reports are the rows it added to the
    inventory: in every world the inventory afterwards is the inventory
    before followed by the items of the result, in order (none when the
    result carries no item list). *)
Theorem sync_query_inventory_growth {float : Type}
    (float_of_str : string -> option float) (fmul_tenth round2 : float -> float)
    (self : VintedAdapter) (query_url : string) (q n : Z)
    (w : World (float := float)) :
  exists r w',
    sync_query float_of_str fmul_tenth round2 self query_url q n w = (Ret r, w')
    /\ items_table w' = items_table w ++ default [] (items r).
Proof.
  destruct (sync_query_cases float_of_str fmul_tenth round2 self query_url q n w)
    as [[He E]|[[He (e & Hm & E)]|[He (l & r & wb & Hm & Hs & E)]]];
    rewrite E; eexists _, _; (split; [reflexivity|]).
  - cbn. now rewrite app_nil_r.
  - rewrite logged_items. cbn. now rewrite app_nil_r.
  - destruct (steps_inventory _ _ _ _ _ _ _ _ Hs (items_table w) [])
      as (new & Hr & Ht & _); cbn [fst snd].
    + reflexivity.
    + rewrite after_call_items, app_nil_r. reflexivity.
    + cbn [fst snd] in *. rewrite logged_items, stored_items, Hr, Ht. reflexivity.
Qed.

(** X14.  [sync_query] writes no setting but the last-sync one: apart from
    that key the settings are the same before and after, in every
    world. *)
Theorem sync_query_touches_one_setting {float : Type}
    (float_of_str : string -> option float) (fmul_tenth round2 : float -> float)
    (self : VintedAdapter) (query_url : string) (q n : Z)
    (w : World (float := float)) :
  delete "vinted_last_sync"
    (settings (snd (sync_query float_of_str fmul_tenth round2 self query_url q n w)))
  = delete "vinted_last_sync" (settings w).
Proof.
  destruct (sync_query_cases float_of_str fmul_tenth round2 self query_url q n w)
    as [[He E]|[[He (e & Hm & E)]|[He (l & r & wb & Hm & Hs & E)]]];
    rewrite E; cbn [snd].
  - reflexivity.
  - now rewrite logged_settings.
  - apply steps_world in Hs as (_ & _ & _ & Hst & _). cbn [fst snd] in Hst.
    rewrite after_call_settings in Hst.
    change (settings (searched query_url n w)) with (settings w) in Hst.
    rewrite logged_settings, stored_settings, Hst.
    destruct (store_ready wb); [apply delete_insert_eq | reflexivity].
Qed.



(** ** Decimal renderings *)

Section PrettyFacts.





End PrettyFacts.

(** ** More on the adapter *)





(** X18.  On a store that takes every request, the statistics after a
    [sync_query] whose search answered count the imported rows as drafts:
    the total and the draft count grow by [imported], the listed and sold
    counts stay. *)
Theorem stats_after_sync {float number : Type}
    (float_of_str : string -> option float) (fmul_tenth round2 : float -> float)
    (zero : number) (add_float : number -> float -> number)
    (round_number : number -> number)
    (profit_float : ItemData (float := float) -> float)
    (self : VintedAdapter) (query_url : string) (q n : Z)
    (w : World (float := float)) (vinted_items : list VintedItem) :
  enabled self = true ->
  reliable w = true ->
  market w query_url n = inr vinted_items ->
  exists r w' st st',
    sync_query float_of_str fmul_tenth round2 self query_url q n w = (Ret r, w')
    /\ fst (get_items_stats number zero add_float round_number profit_float w)
       = Ret st
    /\ fst (get_items_stats number zero add_float round_number profit_float w')
       = Ret st'
    /\ total_items st' = total_items st + imported r
    /\ draft st' = draft st + imported r
    /\ listed st' = listed st
    /\ sold st' = sold st.
Proof.
  intros He Hrel Hm.
  destruct (sync_query_fetch_ok float_of_str fmul_tenth round2
              self query_url q n w vinted_items He Hm) as (r & wb & Hs & E).
  set (wa := after_call (CallGetSetting "banwords") (searched query_url n w)) in *.
  assert (Hrela : reliable wa = true) by (apply reliable_after_call; exact Hrel).
  pose proof (steps_world _ _ _ _ _ _ _ _ Hs) as (_ & _ & _ & _ & Hrelb).
  pose proof (steps_counts _ _ _ _ _ _ _ _ Hs) as (_ & _ & _ & Hlen).
  destruct (steps_inventory _ _ _ _ _ _ _ _ Hs (items_table w) [])
    as (new & Hr & Ht & Hf); cbn [fst snd].
  { reflexivity. }
  { unfold wa. rewrite after_call_items, app_nil_r. reflexivity. }
  cbn [fst snd] in *. specialize (Hrelb Hrela).
  destruct (Hlen [] eq_refl eq_refl) as (rows' & Hr' & Hlen').
  rewrite Hr in Hr'. injection Hr' as <-. cbn [app] in *.
  set (w' := logged (summary_row q r)
               (stored "vinted_last_sync" (pretty (clock wb)) wb)) in *.
  assert (Hrel' : reliable w' = true)
    by (unfold w'; now apply reliable_logged, reliable_stored).
  assert (Htb : items_table w' = items_table w ++ new)
    by (unfold w'; now rewrite logged_items, stored_items).
  assert (Hdraft : Forall (fun x : ItemData => listing_status x = "Draft") new).
  { eapply List.Forall_impl; [|exact Hf]. cbv beta.
    intros row (it & _ & _ & Hn).
    now destruct (normalize_fields _ _ _ _ _ _ Hn). }
  destruct (get_items_stats_run number zero add_float round_number profit_float w)
    as (w1 & E1 & _).
  destruct (get_items_stats_run number zero add_float round_number profit_float w')
    as (w2 & E2 & _).
  rewrite (reliable_ready _ Hrel) in E1. rewrite (reliable_ready _ Hrel') in E2.
  eexists r, w', _, _. split; [exact E|].
  rewrite E1, E2. cbn [fst]. split; [reflexivity|]. split; [reflexivity|].
  cbn [total_items draft listed sold].
  rewrite Htb, length_app, !count_status_app, Hlen'.
  rewrite (count_status_all "Draft" new Hdraft), Hlen'.
  rewrite (count_status_none "Listed" new), (count_status_none "Sold" new).
  - repeat split; lia.
  - eapply List.Forall_impl; [|exact Hdraft]. cbv beta. intros x ->. discriminate.
  - eapply List.Forall_impl; [|exact Hdraft]. cbv beta. intros x ->. discriminate.
Qed.




Lemma stats_after_sync_witness :
  exists r w' st st',
    Demo.sync Demo.on (Demo.world [] (inr demo_repeats)) = (Ret r, w')
    /\ fst (get_items_stats string "0" (fun acc x => acc +:+ " + " +:+ x)
              Demo.round2 (fun _ => "0.0") (Demo.world [] (inr demo_repeats)))
       = Ret st
    /\ fst (get_items_stats string "0" (fun acc x => acc +:+ " + " +:+ x)
              Demo.round2 (fun _ => "0.0") w')
       = Ret st'
    /\ total_items st' = total_items st + imported r
    /\ draft st' = draft st + imported r
    /\ listed st' = listed st
    /\ sold st' = sold st.
Proof.
  exact (stats_after_sync
           Demo.float_of_str Demo.fmul_tenth Demo.round2
           "0" (fun acc x => acc +:+ " + " +:+ x) Demo.round2 (fun _ => "0.0")
           Demo.on Demo.search_url 7 20
           (Demo.world [] (inr demo_repeats)) demo_repeats
           eq_refl eq_refl eq_refl).
Defined.

(** X21.  [get_status] only reads: it never raises, makes two calls of
    [get_setting] and changes no table.  It reports the flag the adapter
    holds in memory, whatever the stored setting says; its sync interval is
    never empty, ["60"] standing in for a missing one; and it reports no
    last sync while the setting is missing or ["0"]. *)
Theorem get_status_reads_only {float : Type}
    (iso_of_timestamp : string -> option string)
    (self : VintedAdapter) (w : World (float := float)) :
  exists st w',
    get_status iso_of_timestamp self w = (Ret st, w')
    /\ status_enabled st = enabled self
    /\ sync_interval st <> ""
    /\ calls w' = calls w ++ [CallGetSetting "vinted_last_sync";
                              CallGetSetting "vinted_sync_interval"]
    /\ settings w' = settings w
    /\ items_table w' = items_table w
    /\ logs_table w' = logs_table w
    /\ (settings w !! "vinted_sync_interval" = None -> sync_interval st = "60")
    /\ (settings w !! "vinted_last_sync" = None
        \/ settings w !! "vinted_last_sync" = Some "0" ->
        last_sync st = None).
Proof.
  unfold get_status, bind, ret. rewrite get_setting_run. cbn [fst snd].
  rewrite get_setting_run. cbn [fst snd].
  eexists _, _. split; [reflexivity|]. cbn [status_enabled sync_interval last_sync].
  rewrite !after_call_calls, !after_call_settings, !after_call_items,
    !after_call_logs, <- app_assoc.
  repeat split.
  - destruct (store_ready (after_call _ w)); [|discriminate].
    destruct (settings w !! "vinted_sync_interval") as [[|c s]|]; discriminate.
  - intros ->. now destruct (store_ready (after_call _ w)).
  - destruct (store_ready w); [|reflexivity]. now intros [-> | ->].
Qed.

Lemma get_status_reads_only_witness :
  exists st,
    fst (get_status demo_iso Demo.off
           (Demo.world [] (inr []))) = Ret st
    /\ sync_interval st = "60"
    /\ last_sync st = None.
Proof.
  destruct (get_status_reads_only demo_iso Demo.off (Demo.world [] (inr [])))
    as (st & w' & E & _ & _ & _ & _ & _ & _ & Hi & Hl).
  exists st. rewrite E. split; [reflexivity|].
  split; [apply Hi; reflexivity | apply Hl; left; reflexivity].
Defined.



(** X23.  [normalize_item] gives no row exactly when the price does not
    convert to a float.  A row it gives never has an empty brand
    (["Unknown"] stands in for a missing or empty one), never an empty
    size, at most one photo and never an empty one, and its SKU is the one
    [generate_sku] makes of the external id and the brand title. *)
Theorem normalize_item_missing_fields {float : Type}
    (float_of_str : string -> option float) (fmul_tenth round2 : float -> float)
    (it : VintedItem) (q : Z) :
  (normalize_item float_of_str fmul_tenth round2 it q = None
   <-> float_of_str (price it) = None)
  /\ (forall d,
        normalize_item float_of_str fmul_tenth round2 it q = Some d ->
        brand d <> ""
        /\ (opt_truthy (brand_title it) = false -> brand d = "Unknown")
        /\ size d <> Some ""
        /\ length (photos d) <= 1
        /\ ~ In "" (photos d)
        /\ sku d = VintedNormalizer.generate_sku (vid it) (brand_title it)
        /\ Some (sale_price d) = float_of_str (price it)).
Proof.
  unfold normalize_item.
  destruct (float_of_str (price it)) as [x|]; split;
    try (split; congruence); try discriminate.
  intros d [= <-]. cbn.
  destruct (brand_title it) as [[|c b]|], (size_title it) as [[|c' s]|],
    (photo it) as [[|c'' p]|]; cbn; repeat split;
    try discriminate; try lia; try tauto;
    intros [H|[]]; discriminate.
Qed.
